(** * JsonpTemplatePlugin: a shallow embedding of lib/web/JsonpTemplatePlugin.js

    The plugin generates the browser bootstrap code of a chunk: the hook
    registry ([getCompilationHooks]), the attribute renderer
    ([renderAttributes]), the three tag builders ([jsonpScript],
    [linkPreload], [linkPrefetch]), the manifest emitter ([renderChunk]),
    the hash contributor ([chunkHash]) and the runtime-requirement
    listeners ([handler] and the taps on runtimeRequirementInTree).

    Part I holds the definitions, each one next to the source lines it
    embeds; Part II holds the theorems. *)

From Stdlib Require Import String Ascii List ZArith Lia Permutation DecimalString.
From stdpp Require Import base gmap sets list strings.

Local Open Scope string_scope.
Local Open Scope list_scope.
Local Set Warnings "-clear-no-such-hyp".

(* ===================================================================== *)
(** * Part I: definitions                                                 *)
(* ===================================================================== *)

(** ** Host-language values *)

(** The double-quote and the backslash, as one-character strings. *)
Definition dq : string := String "034"%char EmptyString.
Definition bs : string := String "092"%char EmptyString.
(** The line feed; "\n" inside generated code stays the two characters
    backslash, n. *)
Definition lf : string := String "010"%char EmptyString.

(** [Array.prototype.join]. *)
Fixpoint join (sep : string) (l : list string) : string :=
  match l with
  | [] => ""
  | [x] => x
  | x :: rest => x +:+ sep +:+ join sep rest
  end.

(** [String(n)] for an integer [n] in the safe range. *)
Definition string_of_Z (n : Z) : string := NilZero.string_of_int (Z.to_int n).

Module JSON.

(** The values the plugin serializes: chunk ids (numbers or strings),
    arrays of ids, entry-info arrays, and configuration strings. *)
#[warnings="-register-all"]
Inductive value :=
| Null
| Bool (b : bool)
| Number (n : Z)
| Str (s : string)
| Array (elems : list value).

Definition hex_digit (n : nat) : string :=
  String (ascii_of_nat (if n <? 10 then 48 + n else 87 + n)%nat) EmptyString.

(** QuoteJSONString, one code unit at a time. *)
Definition escape (c : ascii) : string :=
  let n := nat_of_ascii c in
  if (n =? 34)%nat then bs +:+ dq
  else if (n =? 92)%nat then bs +:+ bs
  else if (n =? 8)%nat then bs +:+ "b"
  else if (n =? 9)%nat then bs +:+ "t"
  else if (n =? 10)%nat then bs +:+ "n"
  else if (n =? 12)%nat then bs +:+ "f"
  else if (n =? 13)%nat then bs +:+ "r"
  else if (n <? 32)%nat then bs +:+ "u00" +:+ hex_digit (n / 16) +:+ hex_digit (n mod 16)
  else String c EmptyString.

Fixpoint escape_all (s : string) : string :=
  match s with
  | EmptyString => EmptyString
  | String c rest => escape c +:+ escape_all rest
  end.

Definition quote (s : string) : string := dq +:+ escape_all s +:+ dq.

(** [JSON.stringify] without indentation. *)
Fixpoint stringify (v : value) : string :=
  match v with
  | Null => "null"
  | Bool b => if b then "true" else "false"
  | Number n => string_of_Z n
  | Str s => quote s
  | Array elems => "[" +:+ join "," (map stringify elems) +:+ "]"
  end.

End JSON.

(** A plain object as the list of its own enumerable string-keyed
    properties, in the order they were created. *)
Definition JsObject (V : Type) : Type := list (string * V).

(** [o[k] = v]: an existing key keeps its place, a new key goes last. *)
Fixpoint obj_set {V} (k : string) (v : V) (o : JsObject V) : JsObject V :=
  match o with
  | [] => [(k, v)]
  | (k', v') :: rest =>
      if String.eqb k k' then (k, v) :: rest else (k', v') :: obj_set k v rest
  end.

(** An object literal: properties (and spread properties) are defined left
    to right on a fresh object. *)
Definition obj_literal {V} (props : list (string * V)) : JsObject V :=
  fold_left (fun o p => obj_set (fst p) (snd p) o) props [].

Fixpoint obj_get {V} (k : string) (o : JsObject V) : option V :=
  match o with
  | [] => None
  | (k', v) :: rest => if String.eqb k k' then Some v else obj_get k rest
  end.

(** Array indices: the canonical decimal forms of the integers from 0 to
    2^32 - 2.  Properties under such keys are enumerated first. *)
Definition is_digit (c : ascii) : bool :=
  let n := nat_of_ascii c in (48 <=? n)%nat && (n <=? 57)%nat.

Fixpoint all_digits (s : string) : bool :=
  match s with
  | EmptyString => true
  | String c rest => is_digit c && all_digits rest
  end.

Fixpoint decimal_value (s : string) (acc : N) : N :=
  match s with
  | EmptyString => acc
  | String c rest => decimal_value rest (10 * acc + N.of_nat (nat_of_ascii c - 48))%N
  end.

Definition array_index (k : string) : option N :=
  match k with
  | EmptyString => None
  | String c rest =>
      if is_digit c && all_digits rest && (negb (Ascii.eqb c "0") || String.eqb rest "")
      then
        let n := decimal_value k 0 in
        if (n <=? 4294967294)%N then Some n else None
      else None
  end.

Definition is_array_index (k : string) : bool :=
  match array_index k with
  | Some _ => true
  | None => false
  end.

(** Ascending order of the indices. *)
Fixpoint insert_index {V} (n : N) (e : string * V) (sorted : list (N * (string * V)))
  : list (N * (string * V)) :=
  match sorted with
  | [] => [(n, e)]
  | (m, e') :: rest =>
      if (n <? m)%N then (n, e) :: sorted else (m, e') :: insert_index n e rest
  end.

Fixpoint index_entries {V} (o : JsObject V) : list (N * (string * V)) :=
  match o with
  | [] => []
  | e :: rest =>
      match array_index (fst e) with
      | Some n => insert_index n e (index_entries rest)
      | None => index_entries rest
      end
  end.

Fixpoint named_entries {V} (o : JsObject V) : list (string * V) :=
  match o with
  | [] => []
  | e :: rest =>
      match array_index (fst e) with
      | Some _ => named_entries rest
      | None => e :: named_entries rest
      end
  end.

(** [Object.entries(o)]: the properties under array indices in ascending
    numeric order, then the other properties in creation order. *)
Definition Object_entries {V} (o : JsObject V) : list (string * V) :=
  map snd (index_entries o) ++ named_entries o.

(** No key of the object is an array index. *)
Definition plain_keys {V} (o : JsObject V) : bool :=
  forallb (fun e => negb (is_array_index (fst e))) o.

(** What the renderer indexes: an array of expressions, or (line 164) a
    bare string, which JavaScript indexes character by character. *)
Inductive ValueCondition :=
| Exprs (elems : list string)
| Chars (s : string).

Definition vc_length (vc : ValueCondition) : nat :=
  match vc with
  | Exprs l => List.length l
  | Chars s => String.length s
  end.

(** [vc[i]]; [None] is [undefined]. *)
Definition vc_index (vc : ValueCondition) (i : nat) : option string :=
  match vc with
  | Exprs l => nth_error l i
  | Chars s => option_map (fun c => String c EmptyString) (String.get i s)
  end.

(** Interpolation into a template literal. *)
Definition interpolate (v : option string) : string :=
  match v with
  | Some s => s
  | None => "undefined"
  end.

Definition AttributeSpec : Type := JsObject ValueCondition.

(** [String(n)] for a natural number. *)
Definition string_of_N (n : N) : string := string_of_Z (Z.of_N n).

Fixpoint drop_trailing_zeros (digits : list N) : list N :=
  match digits with
  | [] => []
  | d :: rest =>
      match drop_trailing_zeros rest with
      | [] => if (d =? 0)%N then [] else [d]
      | rest' => d :: rest'
      end
  end.

(** [String(ms / 1000)]: the quotient of two doubles, printed.  For a
    timeout below 10^15 ms the printed form is the exact decimal with at
    most three fractional digits and no trailing zero. *)
Definition seconds_string (ms : N) : string :=
  let q := (ms / 1000)%N in
  let r := (ms mod 1000)%N in
  match drop_trailing_zeros [(r / 100)%N; (r / 10 mod 10)%N; (r mod 10)%N] with
  | [] => string_of_N q
  | frac => string_of_N q +:+ "." +:+ join "" (map string_of_N frac)
  end.

(** ** Compilation data *)

(** [compilation.outputOptions]. [crossOriginLoading] is [false] or a
    policy string and [jsonpScriptType] may be unset; both are tested for
    truthiness, so the empty string counts as absent. *)
Record OutputOptions := {
  globalObject : string;
  jsonpFunction : string;
  hotUpdateFunction : string;
  crossOriginLoading : option string;
  chunkLoadTimeout : N;
  jsonpScriptType : option string
}.

Definition truthy (v : option string) : bool :=
  match v with
  | Some s => negb (String.eqb s "")
  | None => false
  end.

(** A chunk. [chunk_ref] is the identity of the object (what a WeakSet
    keys on); [isHotUpdateChunk] is [chunk instanceof HotUpdateChunk]. *)
Record Chunk := {
  chunk_ref : positive;
  chunk_id : JSON.value;
  chunk_ids : list JSON.value;
  isHotUpdateChunk : bool;
  hasRuntime : bool
}.

(** The hooks object of one compilation: four references to
    SyncWaterfallHook objects, and the identity of the object itself. *)
Module JsonpCompilationPluginHooks.
Record t := {
  self : positive;
  jsonpScript : positive;
  linkPreload : positive;
  linkPrefetch : positive;
  mutateTag : positive
}.
End JsonpCompilationPluginHooks.

(** Runtime modules of a chunk.  The chunk-loading module is built from
    the three tag-building hooks; it also keeps a reference to the
    requirement set of its chunk, which the listeners below thread
    through explicitly. *)
Inductive RuntimeModule :=
| JsonpChunkLoadingRuntimeModule (jsonpScript linkPreload linkPrefetch : positive)
| OtherRuntimeModule (name : string).

(** A rendered piece of output ([webpack-sources]); only its text matters. *)
Inductive Source := RawSource (text : string).

Definition Source_text (s : Source) : string := match s with RawSource t => t end.

(** What the plugin reads of the chunk graph.  The graph also holds the
    modules of each chunk and their code; the plugin never reads them. *)
Record ChunkGraph := {
  getChunkRuntimeModulesInOrder : Chunk -> list RuntimeModule;
  getChunkModulesCode : Chunk -> Source
}.

Record RenderContext := {
  chunk : Chunk;
  chunkGraph : ChunkGraph;
  outputOptions : OutputOptions
}.

(** ** Collaborators outside the excerpt *)

(** lib/RuntimeGlobals.js: the names of the runtime capabilities. *)
Module RuntimeGlobals.
Class t := {
  require : string;
  moduleFactoriesAddOnly : string;
  hasOwnProperty : string;
  ensureChunkHandlers : string;
  hmrDownloadUpdateHandlers : string;
  hmrDownloadManifest : string;
  publicPath : string;
  getChunkScriptFilename : string;
  getChunkUpdateScriptFilename : string;
  getUpdateManifestFilename : string;
  moduleCache : string;
  hmrModuleData : string;
  startup : string;
  startupNoDefault : string;
  scriptNonce : string
}.
End RuntimeGlobals.

(** lib/Template.js. [indent] takes a string or an array of lines. *)
Module Template.
Class t := {
  indent : string -> string;
  indent_lines : list string -> string;
  asString : list string -> string;
  renderChunkRuntimeModules : list RuntimeModule -> RenderContext -> Source
}.
End Template.

(** lib/RuntimeTemplate.js: [basicFunction(args, body)] renders a function
    expression. *)
Module RuntimeTemplate.
Class t := {
  basicFunction : string -> string -> string
}.
End RuntimeTemplate.

(** lib/web/JsonpHelpers.js. *)
Module JsonpHelpers.
Class t := {
  getEntryInfo : ChunkGraph -> Chunk -> list JSON.value;
  needEntryDeferringCode : Chunk -> bool
}.
End JsonpHelpers.

(** Modelled from the spec: the hook primitive (tapable's
    SyncWaterfallHook) is an ordered waterfall pipeline, each registered
    transform receiving the previous transform's output and returning a
    value of the same shape.  [mutateTag] carries the pair the call sites
    destructure: the element-creation argument and the attribute spec. *)
Definition TagTransform : Type := string * AttributeSpec -> string * AttributeSpec.

Definition waterfall_call (taps : list TagTransform) (tag : string) (attributes : AttributeSpec)
  : string * AttributeSpec :=
  fold_left (fun acc tap => tap acc) taps (tag, attributes).

(** ** Extension hook registry (lines 30-55) *)

(** A SyncWaterfallHook object: its argument names and its taps. *)
Record SyncWaterfallHook := {
  hook_args : list string;
  hook_taps : list string
}.

(** The objects the registry allocates, and the module-level WeakMap
    [compilationHooksMap], keyed by the identity of the compilation. *)
Record Registry := {
  next_ref : positive;
  waterfall_hooks : gmap positive SyncWaterfallHook;
  compilationHooksMap : gmap positive JsonpCompilationPluginHooks.t
}.

(** The argument of [getCompilationHooks]: an instance of Compilation, or
    anything else. *)
Inductive JsValue :=
| CompilationInstance (ref : positive)
| ForeignValue (description : string).

Inductive Exception := TypeError (message : string).

(** [new SyncWaterfallHook(args)]. *)
Definition new_SyncWaterfallHook (args : list string) (r : Registry) : positive * Registry :=
  (next_ref r,
   {| next_ref := Pos.succ (next_ref r);
      waterfall_hooks := <[next_ref r := {| hook_args := args; hook_taps := [] |}]> (waterfall_hooks r);
      compilationHooksMap := compilationHooksMap r |}).

(** The object literal itself. *)
Definition new_object (r : Registry) : positive * Registry :=
  (next_ref r,
   {| next_ref := Pos.succ (next_ref r);
      waterfall_hooks := waterfall_hooks r;
      compilationHooksMap := compilationHooksMap r |}).

Definition WeakMap_set (key : positive) (hooks : JsonpCompilationPluginHooks.t) (r : Registry)
  : Registry :=
  {| next_ref := next_ref r;
     waterfall_hooks := waterfall_hooks r;
     compilationHooksMap := <[key := hooks]> (compilationHooksMap r) |}.

Definition getCompilationHooks (compilation : JsValue) (r : Registry)
  : (Exception + JsonpCompilationPluginHooks.t) * Registry :=
  match compilation with
  | ForeignValue _ =>
      (inl (TypeError "The 'compilation' argument must be an instance of Compilation"), r)
  | CompilationInstance c =>
      match compilationHooksMap r !! c with
      | Some hooks => (inr hooks, r)
      | None =>
          let '(obj, r0) := new_object r in
          let '(h1, r1) := new_SyncWaterfallHook ["source"; "chunk"; "hash"] r0 in
          let '(h2, r2) := new_SyncWaterfallHook ["source"; "chunk"; "hash"] r1 in
          let '(h3, r3) := new_SyncWaterfallHook ["source"; "chunk"; "hash"] r2 in
          let '(h4, r4) := new_SyncWaterfallHook ["tag"; "attributes"] r3 in
          let hooks :=
            {| JsonpCompilationPluginHooks.self := obj;
               JsonpCompilationPluginHooks.jsonpScript := h1;
               JsonpCompilationPluginHooks.linkPreload := h2;
               JsonpCompilationPluginHooks.linkPrefetch := h3;
               JsonpCompilationPluginHooks.mutateTag := h4 |} in
          (inr hooks, WeakMap_set c hooks r4)
      end
  end.

(** A run of calls, in order; only the registry outlives a call. *)
Definition registry_after (calls : list JsValue) (r : Registry) : Registry :=
  fold_left (fun r c => snd (getCompilationHooks c r)) calls r.

Definition empty_registry : Registry :=
  {| next_ref := 1%positive; waterfall_hooks := ∅; compilationHooksMap := ∅ |}.

(** The objects a hooks object consists of. *)
Definition hook_refs (hooks : JsonpCompilationPluginHooks.t) : list positive :=
  [JsonpCompilationPluginHooks.self hooks;
   JsonpCompilationPluginHooks.jsonpScript hooks;
   JsonpCompilationPluginHooks.linkPreload hooks;
   JsonpCompilationPluginHooks.linkPrefetch hooks;
   JsonpCompilationPluginHooks.mutateTag hooks].

(** Every object in use was allocated earlier. *)
Definition allocated (r : Registry) : Prop :=
  (forall k hook, waterfall_hooks r !! k = Some hook -> (k < next_ref r)%positive)
  /\ (forall c hooks k,
        compilationHooksMap r !! c = Some hooks -> k ∈ hook_refs hooks ->
        (k < next_ref r)%positive).

(** ** Attribute-set renderer (lines 57-67) *)

Section RenderAttributes.
Context `{!Template.t}.

Definition render_entry (varName : string) (entry : string * ValueCondition) : list string :=
  let '(key, valueCondition) := entry in
  let setter :=
    varName +:+ "." +:+ key +:+ " = " +:+ interpolate (vc_index valueCondition 0) +:+ ";" in
  if (1 <? vc_length valueCondition)%nat
  then ["if (" +:+ interpolate (vc_index valueCondition 1) +:+ ") {";
        Template.indent setter;
        "}"]
  else [setter].

(** [Array.prototype.concat.apply([], blocks)] flattens one level. *)
Definition renderAttributes (varName : string) (attributes : AttributeSpec) : list string :=
  concat (map (render_entry varName) (Object_entries attributes)).

End RenderAttributes.

(** ** Manifest emitter (lines 76-119) *)

(** A ConcatSource: the children added so far, strings or sources. *)
Inductive Piece :=
| Text (s : string)
| Child (s : Source).

Definition ConcatSource : Type := list Piece.

Definition ConcatSource_add (p : Piece) (source : ConcatSource) : ConcatSource := source ++ [p].

Definition Piece_text (p : Piece) : string :=
  match p with
  | Text s => s
  | Child s => Source_text s
  end.

(** [source.source()]: the text of the children, one after the other. *)
Definition ConcatSource_source (source : ConcatSource) : string :=
  join "" (map Piece_text source).

Section ManifestEmitter.
Context `{!Template.t} `{!JsonpHelpers.t}.

(** Truthiness of [false || value] where the value, when there, is truthy. *)
Definition present {A} (v : option A) : bool :=
  match v with
  | Some _ => true
  | None => false
  end.

(** [runtimeModules.length > 0 && Template.renderChunkRuntimeModules(..)]:
    [None] is [false]; a rendered source is an object, hence truthy. *)
Definition runtimePart_of (renderContext : RenderContext) : option Source :=
  let runtimeModules :=
    getChunkRuntimeModulesInOrder (chunkGraph renderContext) (chunk renderContext) in
  if (0 <? List.length runtimeModules)%nat
  then Some (Template.renderChunkRuntimeModules runtimeModules renderContext)
  else None.

(** [entries.length > 0 && `,${JSON.stringify(entries)}`]. *)
Definition entriesPart_of (entries : list JSON.value) : option string :=
  if (0 <? List.length entries)%nat
  then Some ("," +:+ JSON.stringify (JSON.Array entries))
  else None.

Definition add_runtimePart (runtimePart : option Source) (source : ConcatSource) : ConcatSource :=
  match runtimePart with
  | Some part => ConcatSource_add (Child part) (ConcatSource_add (Text ("," +:+ lf)) source)
  | None => source
  end.

Definition renderChunk_tap (modules : Source) (renderContext : RenderContext) : ConcatSource :=
  let chunk := chunk renderContext in
  let chunkGraph := chunkGraph renderContext in
  let globalObject := globalObject (outputOptions renderContext) in
  let source : ConcatSource := [] in
  let runtimePart := runtimePart_of renderContext in
  if isHotUpdateChunk chunk then
    let jsonpFunction := hotUpdateFunction (outputOptions renderContext) in
    let source :=
      ConcatSource_add
        (Text (globalObject +:+ "[" +:+ JSON.stringify (JSON.Str jsonpFunction) +:+ "]("))
        source in
    let source := ConcatSource_add (Text (JSON.stringify (chunk_id chunk) +:+ ",")) source in
    let source := ConcatSource_add (Child modules) source in
    let source := add_runtimePart runtimePart source in
    ConcatSource_add (Text ")") source
  else
    let jsonpFunction := jsonpFunction (outputOptions renderContext) in
    let source :=
      ConcatSource_add
        (Text ("(" +:+ globalObject +:+ "[" +:+ JSON.stringify (JSON.Str jsonpFunction)
               +:+ "] = " +:+ globalObject +:+ "[" +:+ JSON.stringify (JSON.Str jsonpFunction)
               +:+ "] || []).push(["))
        source in
    let source :=
      ConcatSource_add (Text (JSON.stringify (JSON.Array (chunk_ids chunk)) +:+ ",")) source in
    let source := ConcatSource_add (Child modules) source in
    let entries := JsonpHelpers.getEntryInfo chunkGraph chunk in
    let entriesPart := entriesPart_of entries in
    let source :=
      if present entriesPart || present runtimePart
      then ConcatSource_add (Text (default ",0" entriesPart)) source
      else source in
    let source := add_runtimePart runtimePart source in
    ConcatSource_add (Text "])") source.

End ManifestEmitter.

(** ** Hash contributor (lines 120-131) *)

(** A hash under construction: the arguments of the [update] calls so
    far.  Updates are streamed, so the digest is computed from their
    concatenation, [Hash_content]. *)
Definition Hash : Type := list string.

Definition Hash_update (data : string) (hash : Hash) : Hash := hash ++ [data].

Definition Hash_content (hash : Hash) : string := join "" hash.

Section HashContributor.
Context `{!JsonpHelpers.t}.

Definition chunkHash_tap (chunk : Chunk) (hash : Hash) (context : RenderContext) : Hash :=
  if hasRuntime chunk then hash
  else
    let hash := Hash_update "JsonpTemplatePlugin" hash in
    let hash := Hash_update "1" hash in
    let hash :=
      Hash_update
        (JSON.stringify (JSON.Array (JsonpHelpers.getEntryInfo (chunkGraph context) chunk)))
        hash in
    let hash := Hash_update (jsonpFunction (outputOptions context)) hash in
    let hash := Hash_update (hotUpdateFunction (outputOptions context)) hash in
    Hash_update (globalObject (outputOptions context)) hash.

(** The strings of lines 124-129, in the order they are fed. *)
Definition fed_strings (chunk : Chunk) (context : RenderContext) : list string :=
  ["JsonpTemplatePlugin";
   "1";
   JSON.stringify (JSON.Array (JsonpHelpers.getEntryInfo (chunkGraph context) chunk));
   jsonpFunction (outputOptions context);
   hotUpdateFunction (outputOptions context);
   globalObject (outputOptions context)].

(** The part of the streamed bytes that varies: serialized entry info,
    queue name, hot-update function name, global object. *)
Definition hashed_inputs (chunk : Chunk) (context : RenderContext) : string :=
  JSON.stringify (JSON.Array (JsonpHelpers.getEntryInfo (chunkGraph context) chunk))
  +:+ jsonpFunction (outputOptions context)
  +:+ hotUpdateFunction (outputOptions context)
  +:+ globalObject (outputOptions context).

End HashContributor.

(** ** Tag builders (lines 133-256) *)

Section TagBuilders.
Context `{!Template.t} `{!RuntimeTemplate.t} `{!RuntimeGlobals.t}.
Variable mutateTag : list TagTransform.

(** [...(cond ? { key: value } : {})]. *)
Definition spread_if (cond : option string) (props : list (string * ValueCondition))
  : list (string * ValueCondition) :=
  if truthy cond then props else [].

Definition config_string (v : option string) : JSON.value :=
  match v with
  | Some s => JSON.Str s
  | None => JSON.Null
  end.

(** The object literal of lines 148-166. *)
Definition jsonpScript_spec (o : OutputOptions) : AttributeSpec :=
  obj_literal
    (spread_if (jsonpScriptType o)
       [("type", Exprs [JSON.stringify (config_string (jsonpScriptType o))])]
     ++ [("charset", Exprs [JSON.stringify (JSON.Str "utf-8")]);
         ("timeout", Exprs [JSON.stringify (JSON.Str (seconds_string (chunkLoadTimeout o)))]);
         ("nonce", Exprs [RuntimeGlobals.scriptNonce; RuntimeGlobals.scriptNonce]);
         ("src", Exprs ["url"])]
     ++ spread_if (crossOriginLoading o)
          [("crossOrigin",
            Exprs [JSON.stringify (config_string (crossOriginLoading o));
                   "script.src.indexOf(window.location.origin + '/') !== 0"])]
     ++ [("onload", Chars "onScriptComplete");
         ("onerror", Chars "onScriptComplete")]).

(** The body of the completion handler, lines 176-193. *)
Definition onScriptComplete_body : string :=
  Template.asString
    ["onScriptComplete = " +:+ RuntimeTemplate.basicFunction "" "";
     "// avoid mem leaks in IE.";
     "script.onerror = script.onload = null;";
     "clearTimeout(timeout);";
     "var reportError = loadingEnded();";
     "if(reportError) {";
     Template.indent_lines
       ["var errorType = event && (event.type === 'load' ? 'missing' : event.type);";
        "var realSrc = event && event.target && event.target.src;";
        "error.message = 'Loading chunk ' + chunkId + ' failed.\n(' + errorType + ': ' + realSrc + ')';";
        "error.name = 'ChunkLoadError';";
        "error.type = errorType;";
        "error.request = realSrc;";
        "reportError(error);"];
     "}"].

(** The array handed to [Template.asString] at line 168. *)
Definition jsonpScript_lines (o : OutputOptions) : list string :=
  let '(tagName, attributes) :=
    waterfall_call mutateTag (JSON.stringify (JSON.Str "script")) (jsonpScript_spec o) in
  ["var script = document.createElement(" +:+ tagName +:+ ");";
   "var onScriptComplete;";
   "// create error before stack unwound to get useful stacktrace later";
   "var error = new Error();";
   "onScriptComplete = " +:+ RuntimeTemplate.basicFunction "event" onScriptComplete_body;
   ";";
   "var timeout = setTimeout("
     +:+ RuntimeTemplate.basicFunction "" "onScriptComplete({ type: 'timeout', target: script })"
     +:+ ", " +:+ string_of_N (chunkLoadTimeout o) +:+ ");"]
  ++ renderAttributes "script" attributes.

Definition jsonpScript_tap (o : OutputOptions) (source : string) (chunk : Chunk) (hash : string)
  : string :=
  Template.asString (jsonpScript_lines o).

Definition chunk_url_expr : string :=
  RuntimeGlobals.publicPath +:+ " + " +:+ RuntimeGlobals.getChunkScriptFilename +:+ "(chunkId)".

(** The object literal of lines 209-228. *)
Definition linkPreload_spec (o : OutputOptions) : AttributeSpec :=
  obj_literal
    (spread_if (jsonpScriptType o)
       [("type", Exprs [JSON.stringify (config_string (jsonpScriptType o))])]
     ++ [("charset", Exprs [JSON.stringify (JSON.Str "utf-8")]);
         ("nonce", Exprs [RuntimeGlobals.scriptNonce; RuntimeGlobals.scriptNonce]);
         ("rel", Exprs [JSON.stringify (JSON.Str "preload")]);
         ("as", Exprs [JSON.stringify (JSON.Str "script")]);
         ("href", Exprs [chunk_url_expr])]
     ++ spread_if (crossOriginLoading o)
          [("crossOrigin",
            Exprs [JSON.stringify (config_string (crossOriginLoading o));
                   "link.href.indexOf(window.location.origin + '/') !== 0"])]).

Definition linkPreload_lines (o : OutputOptions) : list string :=
  let '(tagName, attributes) :=
    waterfall_call mutateTag (JSON.stringify (JSON.Str "link")) (linkPreload_spec o) in
  ("var link = document.createElement(" +:+ tagName +:+ ");")
  :: renderAttributes "link" attributes.

Definition linkPreload_tap (o : OutputOptions) (source : string) (chunk : Chunk) (hash : string)
  : string :=
  Template.asString (linkPreload_lines o).

(** The object literal of lines 238-250. *)
Definition linkPrefetch_spec (o : OutputOptions) : AttributeSpec :=
  obj_literal
    ([("nonce", Exprs [RuntimeGlobals.scriptNonce; RuntimeGlobals.scriptNonce]);
      ("rel", Exprs [JSON.stringify (JSON.Str "prefetch")]);
      ("as", Exprs [JSON.stringify (JSON.Str "script")]);
      ("href", Exprs [chunk_url_expr])]
     ++ spread_if (crossOriginLoading o)
          [("crossOrigin", Exprs [JSON.stringify (config_string (crossOriginLoading o))])]).

Definition linkPrefetch_lines (o : OutputOptions) : list string :=
  let '(tagName, attributes) :=
    waterfall_call mutateTag (JSON.stringify (JSON.Str "link")) (linkPrefetch_spec o) in
  ("var link = document.createElement(" +:+ tagName +:+ ");")
  :: renderAttributes "link" attributes.

Definition linkPrefetch_tap (o : OutputOptions) (source : string) (chunk : Chunk) (hash : string)
  : string :=
  Template.asString (linkPrefetch_lines o).

End TagBuilders.

(** ** Runtime-requirement listeners (lines 258-319) *)

(** What the listeners change besides the requirement set they are
    handed: the WeakSet [onceForChunkSet] and the runtime modules added to
    chunks through [compilation.addRuntimeModule], oldest first. *)
Record PluginState := {
  onceForChunkSet : gset positive;
  runtimeModules : list (positive * RuntimeModule)
}.

Definition initial_state : PluginState :=
  {| onceForChunkSet := ∅; runtimeModules := [] |}.

(** A tap [(chunk, set) => ..]: the set is mutated in place, so the
    listener returns it next to the state. *)
Definition Listener : Type := Chunk -> gset string -> PluginState -> gset string * PluginState.

(** [set.add(x)]. *)
Definition Set_add (x : string) (set : gset string) : gset string := set ∪ {[x]}.

Definition WeakSet_add (chunk : Chunk) (st : PluginState) : PluginState :=
  {| onceForChunkSet := onceForChunkSet st ∪ {[chunk_ref chunk]};
     runtimeModules := runtimeModules st |}.

Definition addRuntimeModule (chunk : Chunk) (module : RuntimeModule) (st : PluginState)
  : PluginState :=
  {| onceForChunkSet := onceForChunkSet st;
     runtimeModules := (runtimeModules st ++ [(chunk_ref chunk, module)])%list |}.

Section Listeners.
Context `{!RuntimeGlobals.t} `{!JsonpHelpers.t}.
Variable hooks : JsonpCompilationPluginHooks.t.

Definition chunkLoadingModule : RuntimeModule :=
  JsonpChunkLoadingRuntimeModule
    (JsonpCompilationPluginHooks.jsonpScript hooks)
    (JsonpCompilationPluginHooks.linkPreload hooks)
    (JsonpCompilationPluginHooks.linkPrefetch hooks).

(** Lines 259-273. *)
Definition handler : Listener := fun chunk set st =>
  if decide (chunk_ref chunk ∈ onceForChunkSet st) then (set, st)
  else
    let st := WeakSet_add chunk st in
    let set := Set_add RuntimeGlobals.moduleFactoriesAddOnly set in
    let set := Set_add RuntimeGlobals.hasOwnProperty set in
    (set, addRuntimeModule chunk chunkLoadingModule st).

(** Lines 284-289. *)
Definition ensureChunkHandlers_tap : Listener := fun chunk set st =>
  let set := Set_add RuntimeGlobals.publicPath set in
  let set := Set_add RuntimeGlobals.getChunkScriptFilename set in
  (set, st).

(** Lines 290-298. *)
Definition hmrDownloadUpdateHandlers_tap : Listener := fun chunk set st =>
  let set := Set_add RuntimeGlobals.publicPath set in
  let set := Set_add RuntimeGlobals.getChunkUpdateScriptFilename set in
  let set := Set_add RuntimeGlobals.moduleCache set in
  let set := Set_add RuntimeGlobals.hmrModuleData set in
  let set := Set_add RuntimeGlobals.moduleFactoriesAddOnly set in
  (set, st).

(** Lines 299-304. *)
Definition hmrDownloadManifest_tap : Listener := fun chunk set st =>
  let set := Set_add RuntimeGlobals.publicPath set in
  let set := Set_add RuntimeGlobals.getUpdateManifestFilename set in
  (set, st).

(** Lines 306-319. *)
Definition additionalTreeRuntimeRequirements_tap : Listener := fun chunk set st =>
  let withDefer := JsonpHelpers.needEntryDeferringCode chunk in
  let '(set, st) :=
    if withDefer then
      let set := Set_add RuntimeGlobals.startup set in
      let set := Set_add RuntimeGlobals.startupNoDefault set in
      handler chunk set st
    else (set, st) in
  if withDefer then (Set_add RuntimeGlobals.require set, st) else (set, st).

(** The three keys of [runtimeRequirementInTree] the plugin taps. *)
Inductive Trigger :=
| EnsureChunkHandlers
| HmrDownloadUpdateHandlers
| HmrDownloadManifest.

(** The taps of one key, in registration order: the shared handler
    (lines 274-282), then the tap of the key (lines 284-304). *)
Definition taps_for (t : Trigger) : list Listener :=
  match t with
  | EnsureChunkHandlers => [handler; ensureChunkHandlers_tap]
  | HmrDownloadUpdateHandlers => [handler; hmrDownloadUpdateHandlers_tap]
  | HmrDownloadManifest => [handler; hmrDownloadManifest_tap]
  end.

(** Calling a hook runs its taps in order on the same chunk and set. *)
Definition call_taps (taps : list Listener) (chunk : Chunk) (set : gset string) (st : PluginState)
  : gset string * PluginState :=
  fold_left (fun acc tap => tap chunk (fst acc) (snd acc)) taps (set, st).

(** [runtimeRequirementInTree.for(t).call(chunk, set)]. *)
Definition fire (t : Trigger) : Listener := call_taps (taps_for t).

(** The five listeners the plugin registers. *)
Inductive ListenerName :=
| SharedHandler
| EnsureChunkTap
| HmrDownloadUpdateTap
| HmrDownloadManifestTap
| DeferredEntryTap.

Definition listener (name : ListenerName) : Listener :=
  match name with
  | SharedHandler => handler
  | EnsureChunkTap => ensureChunkHandlers_tap
  | HmrDownloadUpdateTap => hmrDownloadUpdateHandlers_tap
  | HmrDownloadManifestTap => hmrDownloadManifest_tap
  | DeferredEntryTap => additionalTreeRuntimeRequirements_tap
  end.

(** One propagation pass over a chunk: the listeners run, in the given
    order, on the chunk and its requirement set. *)
Definition propagate (order : list ListenerName) : Listener :=
  call_taps (map listener order).

(** A history of trigger firings, each for some chunk with the
    requirement set of that chunk; only the state outlives a firing. *)
Definition after_firings (firings : list (Trigger * Chunk * gset string)) (st : PluginState)
  : PluginState :=
  fold_left (fun st f => snd (fire (fst (fst f)) (snd (fst f)) (snd f) st)) firings st.

End Listeners.

(** The runtime modules added to a chunk so far. *)
Definition attached_to (chunk : Chunk) (st : PluginState) : list RuntimeModule :=
  map snd (List.filter (fun entry => Pos.eqb (fst entry) (chunk_ref chunk)) (runtimeModules st)).

(** Whether a history holds a firing for the chunk. *)
Definition fired_for {T} (chunk : Chunk) (firings : list (T * Chunk * gset string)) : bool :=
  existsb (fun f => Pos.eqb (chunk_ref (snd (fst f))) (chunk_ref chunk)) firings.

(** The marker and the attachments tell the same story: a marked chunk
    has the chunk-loading module attached, once; an unmarked chunk has no
    module attached. *)
Definition marker_matches_modules (hooks : JsonpCompilationPluginHooks.t) (st : PluginState)
  : Prop :=
  forall c : Chunk,
    attached_to c st
    = if decide (chunk_ref c ∈ onceForChunkSet st) then [chunkLoadingModule hooks] else [].

Section Capabilities.
Context `{!RuntimeGlobals.t}.

(** The two capabilities the shared handler adds (lines 262-263). *)
Definition baseline : gset string :=
  {[RuntimeGlobals.moduleFactoriesAddOnly; RuntimeGlobals.hasOwnProperty]}.

(** The capabilities the tap of each key adds (lines 284-304). *)
Definition own_requirements (t : Trigger) : gset string :=
  match t with
  | EnsureChunkHandlers =>
      {[RuntimeGlobals.publicPath; RuntimeGlobals.getChunkScriptFilename]}
  | HmrDownloadUpdateHandlers =>
      {[RuntimeGlobals.publicPath; RuntimeGlobals.getChunkUpdateScriptFilename;
        RuntimeGlobals.moduleCache; RuntimeGlobals.hmrModuleData;
        RuntimeGlobals.moduleFactoriesAddOnly]}
  | HmrDownloadManifest =>
      {[RuntimeGlobals.publicPath; RuntimeGlobals.getUpdateManifestFilename]}
  end.

End Capabilities.

(** ** The loader the emitted code describes (lines 169-200)

    The statements of [jsonpScript_lines] run once per load attempt; the
    completion handler then runs when the page delivers an event.  The
    state below holds what those statements declare or assign. *)

(** The functions a listener slot or the binding may hold. *)
Inductive Callback :=
| Completion
| Noop
| Foreign (name : string).

(** [event.target]. *)
Inductive Target :=
| NoTarget
| NullTarget
| Element (src : string).

Record Event := {
  event_type : string;
  event_target : Target
}.

Inductive JsVal :=
| Undefined
| Null
| StringVal (s : string).

(** String concatenation converts its operands. *)
Definition ToString (v : JsVal) : string :=
  match v with
  | Undefined => "undefined"
  | Null => "null"
  | StringVal s => s
  end.

(** The fields of [error] the handler writes. *)
Record ErrorObject := {
  message : string;
  name : string;
  type : JsVal;
  request : JsVal
}.

Record Loader := {
  onScriptComplete : Callback;
  script_onload : option Callback;
  script_onerror : option Callback;
  script_src : string;
  timeout_pending : bool;
  error : ErrorObject;
  loadingEnded_calls : nat;
  reported : list ErrorObject
}.

(** [var error = new Error();]. *)
Definition new_Error : ErrorObject :=
  {| message := ""; name := "Error"; type := Undefined; request := Undefined |}.

(** The state once lines 169-200 have run: the binding holds the
    completion handler (line 173), the timer is armed (line 196), and the
    listener slots hold what the rendered attributes assigned. *)
Definition armed (url : string) (onload onerror : option Callback) : Loader :=
  {| onScriptComplete := Completion;
     script_onload := onload;
     script_onerror := onerror;
     script_src := url;
     timeout_pending := true;
     error := new_Error;
     loadingEnded_calls := 0;
     reported := [] |}.

(** What the page can deliver: the load event, the error event, or a run
    of the function handed to [setTimeout] (line 196), which is let run
    even when [clearTimeout] came first. *)
Inductive Stimulus :=
| LoadEvent (e : Event)
| ErrorEvent (e : Event)
| TimerCallback.

Section EmittedLoader.
(** [chunkId] as the concatenation prints it, and the answers of
    [loadingEnded()], call after call: a reporter ([true]) or a falsy
    value. *)
Variable chunkId : string.
Variable loadingEnded : nat -> bool.

(** Line 184. *)
Definition errorType_of (event : option Event) : JsVal :=
  match event with
  | None => Undefined
  | Some e =>
      StringVal (if String.eqb (event_type e) "load" then "missing" else event_type e)
  end.

(** Line 185. *)
Definition realSrc_of (event : option Event) : JsVal :=
  match event with
  | None => Undefined
  | Some e =>
      match event_target e with
      | NoTarget => Undefined
      | NullTarget => Null
      | Element src => StringVal src
      end
  end.

(** Lines 186-189. *)
Definition populate (event : option Event) : ErrorObject :=
  let errorType := errorType_of event in
  let realSrc := realSrc_of event in
  {| message :=
       "Loading chunk " +:+ chunkId +:+ " failed." +:+ lf
       +:+ "(" +:+ ToString errorType +:+ ": " +:+ ToString realSrc +:+ ")";
     name := "ChunkLoadError";
     type := errorType;
     request := realSrc |}.

(** The body of the completion handler, lines 177-192. *)
Definition completion (event : option Event) (l : Loader) : Loader :=
  let reportError := loadingEnded (loadingEnded_calls l) in
  let error := if reportError then populate event else error l in
  {| onScriptComplete := Noop;
     script_onload := None;
     script_onerror := None;
     script_src := script_src l;
     timeout_pending := false;
     error := error;
     loadingEnded_calls := S (loadingEnded_calls l);
     reported := if reportError then reported l ++ [error] else reported l |}.

Definition invoke (f : Callback) (event : option Event) (l : Loader) : Loader :=
  match f with
  | Completion => completion event l
  | Noop => l
  | Foreign _ => l
  end.

(** An event reaches the function its slot holds at that moment. *)
Definition dispatch (slot : option Callback) (e : Event) (l : Loader) : Loader :=
  match slot with
  | Some f => invoke f (Some e) l
  | None => l
  end.

(** Line 198: the timer calls through the binding. *)
Definition timeout_event (l : Loader) : Event :=
  {| event_type := "timeout"; event_target := Element (script_src l) |}.

Definition deliver (s : Stimulus) (l : Loader) : Loader :=
  match s with
  | LoadEvent e => dispatch (script_onload l) e l
  | ErrorEvent e => dispatch (script_onerror l) e l
  | TimerCallback => invoke (onScriptComplete l) (Some (timeout_event l)) l
  end.

Definition deliver_all (stimuli : list Stimulus) (l : Loader) : Loader :=
  fold_left (fun l s => deliver s l) stimuli l.

End EmittedLoader.

(** ** Stand-ins for the collaborators

    Used to run the definitions on concrete inputs; the theorems of
    Part II hold for every collaborator. *)
Module Sample.

Definition tab : string := String "009"%char EmptyString.

Definition runtimeGlobals : RuntimeGlobals.t :=
  {| RuntimeGlobals.require := "__webpack_require__";
     RuntimeGlobals.moduleFactoriesAddOnly := "__webpack_require__.m (add only)";
     RuntimeGlobals.hasOwnProperty := "__webpack_require__.o";
     RuntimeGlobals.ensureChunkHandlers := "__webpack_require__.f";
     RuntimeGlobals.hmrDownloadUpdateHandlers := "__webpack_require__.hmrC";
     RuntimeGlobals.hmrDownloadManifest := "__webpack_require__.hmrM";
     RuntimeGlobals.publicPath := "__webpack_require__.p";
     RuntimeGlobals.getChunkScriptFilename := "__webpack_require__.u";
     RuntimeGlobals.getChunkUpdateScriptFilename := "__webpack_require__.hu";
     RuntimeGlobals.getUpdateManifestFilename := "__webpack_require__.hmrF";
     RuntimeGlobals.moduleCache := "__webpack_require__.c";
     RuntimeGlobals.hmrModuleData := "__webpack_require__.hmrD";
     RuntimeGlobals.startup := "__webpack_require__.x";
     RuntimeGlobals.startupNoDefault := "__webpack_require__.x (no default handler)";
     RuntimeGlobals.scriptNonce := "__webpack_require__.nc" |}.

Definition template : Template.t :=
  {| Template.indent := fun s => tab +:+ s;
     Template.indent_lines := fun l => join lf (map (fun s => tab +:+ s) l);
     Template.asString := join lf;
     Template.renderChunkRuntimeModules := fun _ _ => RawSource "function(__webpack_require__) {}" |}.

Definition runtimeTemplate : RuntimeTemplate.t :=
  {| RuntimeTemplate.basicFunction := fun args body =>
       "function(" +:+ args +:+ ") {" +:+ lf +:+ tab +:+ body +:+ lf +:+ "}" |}.

(** Every chunk is its own single entry, and none needs deferring. *)
Definition helpers : JsonpHelpers.t :=
  {| JsonpHelpers.getEntryInfo := fun _ c => if hasRuntime c then [] else [JSON.Array [chunk_id c]];
     JsonpHelpers.needEntryDeferringCode := fun c => hasRuntime c |}.

Definition options : OutputOptions :=
  {| globalObject := "window";
     jsonpFunction := "webpackJsonp";
     hotUpdateFunction := "webpackHotUpdate";
     crossOriginLoading := Some "anonymous";
     chunkLoadTimeout := 120000%N;
     jsonpScriptType := Some "text/javascript" |}.

Definition hooks : JsonpCompilationPluginHooks.t :=
  {| JsonpCompilationPluginHooks.self := 1%positive;
     JsonpCompilationPluginHooks.jsonpScript := 2%positive;
     JsonpCompilationPluginHooks.linkPreload := 3%positive;
     JsonpCompilationPluginHooks.linkPrefetch := 4%positive;
     JsonpCompilationPluginHooks.mutateTag := 5%positive |}.

(** A chunk of two merged ids that bootstraps the module system, a
    lazily loaded chunk, and the hot update of the latter. *)
Definition main_chunk : Chunk :=
  {| chunk_ref := 1%positive;
     chunk_id := JSON.Number 1;
     chunk_ids := [JSON.Number 1; JSON.Number 2];
     isHotUpdateChunk := false;
     hasRuntime := true |}.

Definition lazy_chunk : Chunk :=
  {| chunk_ref := 2%positive;
     chunk_id := JSON.Number 7;
     chunk_ids := [JSON.Number 7];
     isHotUpdateChunk := false;
     hasRuntime := false |}.

Definition hot_chunk : Chunk :=
  {| chunk_ref := 3%positive;
     chunk_id := JSON.Number 7;
     chunk_ids := [JSON.Number 7];
     isHotUpdateChunk := true;
     hasRuntime := false |}.

(** A chunk with neither entries nor runtime modules. *)
Definition plain_chunk : Chunk :=
  {| chunk_ref := 4%positive;
     chunk_id := JSON.Number 1;
     chunk_ids := [JSON.Number 1; JSON.Number 2];
     isHotUpdateChunk := false;
     hasRuntime := true |}.

(** Only the main chunk has runtime modules. *)
Definition graph : ChunkGraph :=
  {| getChunkRuntimeModulesInOrder := fun c =>
       if Pos.eqb (chunk_ref c) 1 then [OtherRuntimeModule "ensure chunk"] else [];
     getChunkModulesCode := fun _ => RawSource "{}" |}.

Definition context (c : Chunk) (o : OutputOptions) : RenderContext :=
  {| chunk := c; chunkGraph := graph; outputOptions := o |}.

Definition named (queue hot : string) : OutputOptions :=
  {| globalObject := "window";
     jsonpFunction := queue;
     hotUpdateFunction := hot;
     crossOriginLoading := None;
     chunkLoadTimeout := 120000%N;
     jsonpScriptType := None |}.

End Sample.

(** ** The renderer as the specification words it

    An attribute is a name, a value expression and an optional guard; a
    spec lists the attributes in insertion order. *)
Record Attribute := {
  attr_name : string;
  valueExpr : string;
  guardExpr : option string
}.

(** The one- or two-element array of an attribute. *)
Definition encode (a : Attribute) : string * ValueCondition :=
  (attr_name a,
   match guardExpr a with
   | Some guard => Exprs [valueExpr a; guard]
   | None => Exprs [valueExpr a]
   end).

(** The mapping built by inserting the attributes one after the other. *)
Definition spec_of (attrs : list Attribute) : AttributeSpec := obj_literal (map encode attrs).

Section RendererSpecification.
Context `{!Template.t}.

Definition assignment (target : string) (a : Attribute) : string :=
  target +:+ "." +:+ attr_name a +:+ " = " +:+ valueExpr a +:+ ";".

Definition attribute_block (target : string) (a : Attribute) : list string :=
  match guardExpr a with
  | Some guard => ["if (" +:+ guard +:+ ") {"; Template.indent (assignment target a); "}"]
  | None => [assignment target a]
  end.

Fixpoint attribute_blocks (target : string) (attrs : list Attribute) : list string :=
  match attrs with
  | [] => []
  | a :: rest => attribute_block target a ++ attribute_blocks target rest
  end.

End RendererSpecification.

(** ** Blocks of emitted lines the theorems speak of *)

Section EmittedBlocks.
Context `{!Template.t} `{!RuntimeGlobals.t}.

(** The block every builder renders for the nonce: an assignment guarded
    at run time by the nonce expression itself. *)
Definition nonce_block (varName : string) : list string :=
  ["if (" +:+ RuntimeGlobals.scriptNonce +:+ ") {";
   Template.indent (varName +:+ ".nonce = " +:+ RuntimeGlobals.scriptNonce +:+ ";");
   "}"].

(** The lines the renderer produces for the last two entries of the
    script spec, the bare strings of lines 164-165: the string is indexed
    like an array, so its first character becomes the value and its second
    the guard. *)
Definition handler_lines : list string :=
  ["if (n) {"; Template.indent "script.onload = o;"; "}";
   "if (n) {"; Template.indent "script.onerror = o;"; "}"].

End EmittedBlocks.

(** ** Histories of listener calls, and what a pass adds *)

Section ListenerHistories.
Context `{!RuntimeGlobals.t} `{!JsonpHelpers.t}.
Variable hooks : JsonpCompilationPluginHooks.t.

(** Any of the five listeners called any number of times, each call for
    some chunk with the requirement set of that chunk; only the state
    outlives a call. *)
Definition after_calls (calls : list (ListenerName * Chunk * gset string)) (st : PluginState)
  : PluginState :=
  fold_left (fun st x => snd (listener hooks (fst (fst x)) (snd (fst x)) (snd x) st)) calls st.

(** Whether a listener reaches the shared handler: the handler itself
    (lines 274-282) and the tree-wide listener under [withDefer]
    (line 313). *)
Definition runs_handler (name : ListenerName) (c : Chunk) : bool :=
  match name with
  | SharedHandler => true
  | DeferredEntryTap => JsonpHelpers.needEntryDeferringCode c
  | EnsureChunkTap | HmrDownloadUpdateTap | HmrDownloadManifestTap => false
  end.

(** What a listener adds whatever the marker says. *)
Definition own_additions (name : ListenerName) (c : Chunk) : gset string :=
  match name with
  | SharedHandler => ∅
  | EnsureChunkTap => own_requirements EnsureChunkHandlers
  | HmrDownloadUpdateTap => own_requirements HmrDownloadUpdateHandlers
  | HmrDownloadManifestTap => own_requirements HmrDownloadManifest
  | DeferredEntryTap =>
      if JsonpHelpers.needEntryDeferringCode c
      then {[RuntimeGlobals.startup; RuntimeGlobals.startupNoDefault; RuntimeGlobals.require]}
      else ∅
  end.

Definition pass_additions (order : list ListenerName) (c : Chunk) : gset string :=
  ⋃ (map (fun name => own_additions name c) order).

(** The state once the handler has acted on a chunk (lines 261, 264). *)
Definition handled (c : Chunk) (st : PluginState) : PluginState :=
  addRuntimeModule c (chunkLoadingModule hooks) (WeakSet_add c st).

(** Whether some call of a history reached the handler for the chunk. *)
Definition handled_in (c : Chunk) (calls : list (ListenerName * Chunk * gset string)) : bool :=
  existsb
    (fun x => Pos.eqb (chunk_ref (snd (fst x))) (chunk_ref c)
              && runs_handler (fst (fst x)) (snd (fst x)))
    calls.

End ListenerHistories.

(** The compilations among the arguments of a run of calls. *)
Definition compilations_of (calls : list JsValue) : gset positive :=
  list_to_set
    (omap (fun v => match v with CompilationInstance c => Some c | ForeignValue _ => None end)
       calls).

(** The bookkeeping of the registry: every object was allocated earlier,
    there are four waterfall hooks and five objects per cached
    compilation, and no two compilations share an object. *)
Definition accounted (r : Registry) : Prop :=
  allocated r
  /\ size (waterfall_hooks r) = 4 * size (compilationHooksMap r)
  /\ Pos.to_nat (next_ref r) = 1 + 5 * size (compilationHooksMap r)
  /\ (forall c1 c2 h1 h2 k,
        c1 <> c2 ->
        compilationHooksMap r !! c1 = Some h1 ->
        compilationHooksMap r !! c2 = Some h2 ->
        k ∈ hook_refs h1 -> k ∉ hook_refs h2).

(** The event a stimulus hands to the handler. *)
Definition event_of (s : Stimulus) (l : Loader) : Event :=
  match s with
  | LoadEvent e => e
  | ErrorEvent e => e
  | TimerCallback => timeout_event l
  end.

Definition is_timer (s : Stimulus) : bool :=
  match s with
  | TimerCallback => true
  | LoadEvent _ | ErrorEvent _ => false
  end.


(* ===================================================================== *)
(** * Part II: theorems                                                   *)
(* ===================================================================== *)

(** ** Objects *)

Lemma obj_set_fresh {V} (k : string) (v : V) (o : JsObject V) :
  k ∉ map fst o -> obj_set k v o = (o ++ [(k, v)])%list.
Proof.
  induction o as [|[k' v'] o IH]; intros Hk; [reflexivity|].
  cbn [obj_set]. destruct (String.eqb_spec k k') as [->|Hne].
  - exfalso. apply Hk. cbn. left.
  - cbn. f_equal. apply IH. intros Hin. apply Hk. cbn. right. exact Hin.
Qed.

Lemma obj_literal_from {V} (props acc : JsObject V) :
  NoDup (map fst acc ++ map fst props) ->
  fold_left (fun o p => obj_set (fst p) (snd p) o) props acc = acc ++ props.
Proof.
  revert acc. induction props as [|[k v] props IH]; intros acc Hnd; cbn.
  - by rewrite app_nil_r.
  - rewrite obj_set_fresh.
    + rewrite IH.
      * by rewrite <- app_assoc.
      * rewrite map_app. cbn. rewrite <- app_assoc. exact Hnd.
    + apply NoDup_app in Hnd as (_ & Hdisj & _). intros Hin.
      apply (Hdisj k Hin). cbn. left.
Qed.

(** A literal with distinct keys lists its properties as written. *)
Lemma obj_literal_distinct {V} (props : JsObject V) :
  NoDup (map fst props) -> obj_literal props = props.
Proof. intros Hnd. unfold obj_literal. by rewrite obj_literal_from. Qed.

Lemma plain_keys_cons {V} (e : string * V) (o : JsObject V) :
  plain_keys (e :: o) = true <-> array_index (fst e) = None /\ plain_keys o = true.
Proof.
  unfold plain_keys, is_array_index. cbn [forallb]. rewrite andb_true_iff.
  destruct (array_index (fst e)); cbn; intuition discriminate.
Qed.

Lemma plain_keys_app {V} (a b : JsObject V) :
  plain_keys (a ++ b) = true <-> plain_keys a = true /\ plain_keys b = true.
Proof. unfold plain_keys. by rewrite forallb_app, andb_true_iff. Qed.

(** Without array indices among the keys, enumeration order is creation
    order. *)
Lemma Object_entries_plain {V} (o : JsObject V) :
  plain_keys o = true -> Object_entries o = o.
Proof.
  intros Hplain. unfold Object_entries.
  assert (Hboth : index_entries o = [] /\ named_entries o = o).
  { induction o as [|e o IH]; [done|].
    apply plain_keys_cons in Hplain as [He Ho]. destruct (IH Ho) as [Hi Hn].
    cbn [index_entries named_entries]. by rewrite He, Hi, Hn. }
  destruct Hboth as [-> ->]. reflexivity.
Qed.

Lemma insert_index_perm {V} (n : N) (e : string * V) (sorted : list (N * (string * V))) :
  Permutation (map snd (insert_index n e sorted)) (e :: map snd sorted).
Proof.
  induction sorted as [|[m e'] sorted IH]; [done|].
  cbn [insert_index]. destruct (n <? m)%N; [done|].
  cbn [map snd]. rewrite IH. apply perm_swap.
Qed.

(** Enumeration only reorders. *)
Lemma Object_entries_perm {V} (o : JsObject V) : Permutation (Object_entries o) o.
Proof.
  unfold Object_entries. induction o as [|e o IH]; [done|].
  cbn [index_entries named_entries]. destruct (array_index (fst e)).
  - rewrite insert_index_perm. cbn. by constructor.
  - rewrite <- Permutation_middle. by constructor.
Qed.

Lemma obj_get_In {V} (k : string) (v : V) (o : JsObject V) :
  obj_get k o = Some v -> In (k, v) o.
Proof.
  induction o as [|[k' v'] o IH]; cbn [obj_get]; [discriminate|].
  destruct (String.eqb_spec k k') as [->|Hne].
  - intros [= ->]. by left.
  - intros Hget. right. by apply IH.
Qed.

(** ** Attribute-set renderer *)

Section RenderAttributesProps.
Context `{!Template.t}.

Lemma renderAttributes_plain (varName : string) (attributes : AttributeSpec) :
  plain_keys attributes = true ->
  renderAttributes varName attributes = concat (map (render_entry varName) attributes).
Proof. intros Hplain. unfold renderAttributes. by rewrite Object_entries_plain. Qed.

Lemma render_entry_encode (target : string) (a : Attribute) :
  render_entry target (encode a) = attribute_block target a.
Proof. unfold encode, attribute_block, assignment. by destruct a as [n v [g|]]. Qed.

Lemma render_entries_encode (target : string) (attrs : list Attribute) :
  concat (map (render_entry target) (map encode attrs)) = attribute_blocks target attrs.
Proof.
  induction attrs as [|a attrs IH]; [reflexivity|].
  cbn [map concat attribute_blocks]. by rewrite render_entry_encode, IH.
Qed.

Lemma plain_keys_encode (attrs : list Attribute) :
  forallb (fun a => negb (is_array_index (attr_name a))) attrs = true ->
  plain_keys (map encode attrs) = true.
Proof.
  unfold plain_keys. induction attrs as [|a attrs IH]; [done|].
  cbn [forallb map encode fst]. rewrite !andb_true_iff. intros [Ha Hrest].
  split; [exact Ha|by apply IH].
Qed.

(** C5, as the code has it. For every target variable name and every
    attribute spec (each attribute a value expression with or without a
    guard, names distinct as in any mapping) none of whose names is an
    array index, [renderAttributes] emits the blocks of the attributes in
    insertion order: the assignment [target.attr = value;], wrapped in
    [if (guard) { .. }] exactly when the attribute has a guard and bare
    otherwise. *)
Theorem renderAttributes_follows_insertion_order (target : string) (attrs : list Attribute) :
  NoDup (map attr_name attrs) ->
  forallb (fun a => negb (is_array_index (attr_name a))) attrs = true ->
  renderAttributes target (spec_of attrs) = attribute_blocks target attrs
  /\ (forall a, guardExpr a = None ->
        attribute_block target a = [target +:+ "." +:+ attr_name a +:+ " = " +:+ valueExpr a +:+ ";"])
  /\ (forall a guard, guardExpr a = Some guard ->
        attribute_block target a =
          ["if (" +:+ guard +:+ ") {";
           Template.indent (target +:+ "." +:+ attr_name a +:+ " = " +:+ valueExpr a +:+ ";");
           "}"]).
Proof.
  intros Hnd Hplain. split; [|split].
  - unfold spec_of. rewrite obj_literal_distinct.
    + rewrite renderAttributes_plain by by apply plain_keys_encode.
      apply render_entries_encode.
    + rewrite map_map. exact Hnd.
  - intros a Ha. unfold attribute_block, assignment. by rewrite Ha.
  - intros a guard Ha. unfold attribute_block, assignment. by rewrite Ha.
Qed.

End RenderAttributesProps.

(** ** Tag builders *)

(** Distinctness of a concrete list of keys, by evaluation. *)
Ltac distinct_keys := apply (bool_decide_unpack _); vm_compute; exact I.

Section TagBuilderProps.
Context `{!Template.t} `{!RuntimeTemplate.t} `{!RuntimeGlobals.t}.

Lemma jsonpScript_spec_entries (o : OutputOptions) :
  jsonpScript_spec o =
    spread_if (jsonpScriptType o)
      [("type", Exprs [JSON.stringify (config_string (jsonpScriptType o))])]
    ++ [("charset", Exprs [JSON.stringify (JSON.Str "utf-8")]);
        ("timeout", Exprs [JSON.stringify (JSON.Str (seconds_string (chunkLoadTimeout o)))]);
        ("nonce", Exprs [RuntimeGlobals.scriptNonce; RuntimeGlobals.scriptNonce]);
        ("src", Exprs ["url"])]
    ++ spread_if (crossOriginLoading o)
         [("crossOrigin",
           Exprs [JSON.stringify (config_string (crossOriginLoading o));
                  "script.src.indexOf(window.location.origin + '/') !== 0"])]
    ++ [("onload", Chars "onScriptComplete");
        ("onerror", Chars "onScriptComplete")].
Proof.
  unfold jsonpScript_spec. apply obj_literal_distinct.
  unfold spread_if. destruct (truthy (jsonpScriptType o)), (truthy (crossOriginLoading o));
    cbn [map fst app]; distinct_keys.
Qed.

Lemma linkPreload_spec_entries (o : OutputOptions) :
  linkPreload_spec o =
    spread_if (jsonpScriptType o)
      [("type", Exprs [JSON.stringify (config_string (jsonpScriptType o))])]
    ++ [("charset", Exprs [JSON.stringify (JSON.Str "utf-8")]);
        ("nonce", Exprs [RuntimeGlobals.scriptNonce; RuntimeGlobals.scriptNonce]);
        ("rel", Exprs [JSON.stringify (JSON.Str "preload")]);
        ("as", Exprs [JSON.stringify (JSON.Str "script")]);
        ("href", Exprs [chunk_url_expr])]
    ++ spread_if (crossOriginLoading o)
         [("crossOrigin",
           Exprs [JSON.stringify (config_string (crossOriginLoading o));
                  "link.href.indexOf(window.location.origin + '/') !== 0"])].
Proof.
  unfold linkPreload_spec. apply obj_literal_distinct.
  unfold spread_if. destruct (truthy (jsonpScriptType o)), (truthy (crossOriginLoading o));
    cbn [map fst app]; distinct_keys.
Qed.

Lemma linkPrefetch_spec_entries (o : OutputOptions) :
  linkPrefetch_spec o =
    [("nonce", Exprs [RuntimeGlobals.scriptNonce; RuntimeGlobals.scriptNonce]);
     ("rel", Exprs [JSON.stringify (JSON.Str "prefetch")]);
     ("as", Exprs [JSON.stringify (JSON.Str "script")]);
     ("href", Exprs [chunk_url_expr])]
    ++ spread_if (crossOriginLoading o)
         [("crossOrigin", Exprs [JSON.stringify (config_string (crossOriginLoading o))])].
Proof.
  unfold linkPrefetch_spec. apply obj_literal_distinct.
  unfold spread_if. destruct (truthy (crossOriginLoading o));
    cbn [map fst app]; distinct_keys.
Qed.

Lemma renderAttributes_lookup (varName key : string) (vc : ValueCondition) (attrs : AttributeSpec) :
  obj_get key attrs = Some vc ->
  exists pre post,
    renderAttributes varName attrs = pre ++ render_entry varName (key, vc) ++ post.
Proof.
  intros Hget%obj_get_In.
  apply (Permutation_in _ (Permutation_sym (Object_entries_perm attrs))) in Hget.
  apply in_split in Hget as (l1 & l2 & Heq).
  exists (concat (map (render_entry varName) l1)), (concat (map (render_entry varName) l2)).
  unfold renderAttributes. rewrite Heq, map_app, concat_app. reflexivity.
Qed.

Lemma jsonpScript_spec_plain (o : OutputOptions) : plain_keys (jsonpScript_spec o) = true.
Proof.
  rewrite jsonpScript_spec_entries. unfold spread_if.
  by destruct (truthy (jsonpScriptType o)), (truthy (crossOriginLoading o)).
Qed.

Lemma linkPreload_spec_plain (o : OutputOptions) : plain_keys (linkPreload_spec o) = true.
Proof.
  rewrite linkPreload_spec_entries. unfold spread_if.
  by destruct (truthy (jsonpScriptType o)), (truthy (crossOriginLoading o)).
Qed.

Lemma linkPrefetch_spec_plain (o : OutputOptions) : plain_keys (linkPrefetch_spec o) = true.
Proof.
  rewrite linkPrefetch_spec_entries. unfold spread_if.
  by destruct (truthy (crossOriginLoading o)).
Qed.

Lemma nonce_in_jsonpScript_spec (o : OutputOptions) :
  obj_get "nonce" (jsonpScript_spec o)
  = Some (Exprs [RuntimeGlobals.scriptNonce; RuntimeGlobals.scriptNonce]).
Proof.
  rewrite jsonpScript_spec_entries. unfold spread_if.
  by destruct (truthy (jsonpScriptType o)).
Qed.

Lemma nonce_in_linkPreload_spec (o : OutputOptions) :
  obj_get "nonce" (linkPreload_spec o)
  = Some (Exprs [RuntimeGlobals.scriptNonce; RuntimeGlobals.scriptNonce]).
Proof.
  rewrite linkPreload_spec_entries. unfold spread_if.
  by destruct (truthy (jsonpScriptType o)).
Qed.

Lemma nonce_in_linkPrefetch_spec (o : OutputOptions) :
  obj_get "nonce" (linkPrefetch_spec o)
  = Some (Exprs [RuntimeGlobals.scriptNonce; RuntimeGlobals.scriptNonce]).
Proof. by rewrite linkPrefetch_spec_entries. Qed.

Lemma nonce_block_rendered (varName : string) (attrs : AttributeSpec) :
  obj_get "nonce" attrs
  = Some (Exprs [RuntimeGlobals.scriptNonce; RuntimeGlobals.scriptNonce]) ->
  exists pre post, renderAttributes varName attrs = pre ++ nonce_block varName ++ post.
Proof.
  intros Hget. destruct (renderAttributes_lookup varName _ _ _ Hget) as (pre & post & Heq).
  exists pre, post. rewrite Heq. reflexivity.
Qed.

(** C10. Whatever the output options, the attribute spec each of the
    three tag builders hands to [mutateTag] has a [nonce] entry whose guard
    is its value, the runtime nonce global; with no other plugin tapping
    [mutateTag], the emitted lines hold the nonce assignment inside a
    run-time test of that same expression. *)
Theorem nonce_attribute_always_built (o : OutputOptions) :
  let nonce := Exprs [RuntimeGlobals.scriptNonce; RuntimeGlobals.scriptNonce] in
  (obj_get "nonce" (jsonpScript_spec o) = Some nonce
   /\ obj_get "nonce" (linkPreload_spec o) = Some nonce
   /\ obj_get "nonce" (linkPrefetch_spec o) = Some nonce)
  /\ (exists pre post, jsonpScript_lines [] o = pre ++ nonce_block "script" ++ post)
  /\ (exists pre post, linkPreload_lines [] o = pre ++ nonce_block "link" ++ post)
  /\ (exists pre post, linkPrefetch_lines [] o = pre ++ nonce_block "link" ++ post).
Proof.
  cbn zeta. split; [|split; [|split]].
  - auto using nonce_in_jsonpScript_spec, nonce_in_linkPreload_spec, nonce_in_linkPrefetch_spec.
  - destruct (nonce_block_rendered "script" _ (nonce_in_jsonpScript_spec o)) as (pre & post & Heq).
    unfold jsonpScript_lines, waterfall_call. cbn [fold_left]. rewrite Heq.
    eexists (_ ++ pre), post. by rewrite <- app_assoc.
  - destruct (nonce_block_rendered "link" _ (nonce_in_linkPreload_spec o)) as (pre & post & Heq).
    unfold linkPreload_lines, waterfall_call. cbn [fold_left]. rewrite Heq.
    eexists (_ :: pre), post. reflexivity.
  - destruct (nonce_block_rendered "link" _ (nonce_in_linkPrefetch_spec o)) as (pre & post & Heq).
    unfold linkPrefetch_lines, waterfall_call. cbn [fold_left]. rewrite Heq.
    eexists (_ :: pre), post. reflexivity.
Qed.

(** C6, evaluated. For every output configuration the script spec maps
    [onload] and [onerror] to the bare string, not to a one-element array,
    and (no other plugin tapping [mutateTag]) the emitted lines end with
    assignments of [o] guarded by [n] instead of assignments of the
    completion handler. *)
Theorem jsonpScript_handlers_rendered_from_string (o : OutputOptions) :
  obj_get "onload" (jsonpScript_spec o) = Some (Chars "onScriptComplete")
  /\ obj_get "onerror" (jsonpScript_spec o) = Some (Chars "onScriptComplete")
  /\ exists pre, jsonpScript_lines [] o = pre ++ handler_lines.
Proof.
  split; [|split].
  - rewrite jsonpScript_spec_entries. unfold spread_if.
    by destruct (truthy (jsonpScriptType o)), (truthy (crossOriginLoading o)).
  - rewrite jsonpScript_spec_entries. unfold spread_if.
    by destruct (truthy (jsonpScriptType o)), (truthy (crossOriginLoading o)).
  - unfold jsonpScript_lines, waterfall_call. cbn [fold_left].
    rewrite renderAttributes_plain by apply jsonpScript_spec_plain.
    rewrite jsonpScript_spec_entries, !map_app, !concat_app.
    eexists. rewrite !app_assoc. reflexivity.
Qed.

End TagBuilderProps.

(** With the stand-in collaborators, no emitted line assigns the
    completion handler to either listener slot. *)
Example jsonpScript_sample_has_no_handler_assignment :
  let lines :=
    @jsonpScript_lines Sample.template Sample.runtimeTemplate Sample.runtimeGlobals []
      Sample.options in
  ((Sample.tab +:+ "script.onload = onScriptComplete;") ∉ lines)
  /\ ("script.onload = onScriptComplete;" ∉ lines)
  /\ ("script.onerror = onScriptComplete;" ∉ lines)
  /\ ((Sample.tab +:+ "script.onload = o;") ∈ lines).
Proof. cbn zeta. repeat split; apply (bool_decide_unpack _); vm_compute; exact I. Qed.

(** ** Manifest emitter *)

Section ManifestEmitterProps.
Context `{!Template.t} `{!JsonpHelpers.t}.

Lemma runtimePart_of_none (rc : RenderContext) :
  getChunkRuntimeModulesInOrder (chunkGraph rc) (chunk rc) = [] ->
  runtimePart_of rc = None.
Proof. intros Hrm. unfold runtimePart_of. by rewrite Hrm. Qed.

Lemma runtimePart_of_some (rc : RenderContext) :
  getChunkRuntimeModulesInOrder (chunkGraph rc) (chunk rc) <> [] ->
  runtimePart_of rc
  = Some (Template.renderChunkRuntimeModules
            (getChunkRuntimeModulesInOrder (chunkGraph rc) (chunk rc)) rc).
Proof.
  intros Hrm. unfold runtimePart_of.
  by destruct (getChunkRuntimeModulesInOrder (chunkGraph rc) (chunk rc)).
Qed.

Lemma entriesPart_of_some (entries : list JSON.value) :
  entries <> [] ->
  entriesPart_of entries = Some ("," +:+ JSON.stringify (JSON.Array entries)).
Proof. intros Hne. unfold entriesPart_of. by destruct entries. Qed.

(** C1. For a chunk that is not a hot update the emitter produces the
    push statement on the queue of the global object, its array holding
    the chunk ids and the module map, then: nothing more when there are
    neither entries nor runtime modules; the serialized entries as third
    element when there are entries; a literal 0 as third element when
    there are runtime modules but no entries, the runtime statements
    coming fourth.  For a hot-update chunk it produces the direct call of
    the hot-update function with the single chunk id, the module map and,
    when there are runtime modules, the runtime statements. *)
Theorem renderChunk_wire_shapes (modules : Source) (rc : RenderContext) :
  let g := globalObject (outputOptions rc) in
  let q := JSON.stringify (JSON.Str (jsonpFunction (outputOptions rc))) in
  let h := JSON.stringify (JSON.Str (hotUpdateFunction (outputOptions rc))) in
  let entries := JsonpHelpers.getEntryInfo (chunkGraph rc) (chunk rc) in
  let runtimeModules := getChunkRuntimeModulesInOrder (chunkGraph rc) (chunk rc) in
  let runtime := Template.renderChunkRuntimeModules runtimeModules rc in
  let push := Text ("(" +:+ g +:+ "[" +:+ q +:+ "] = " +:+ g +:+ "[" +:+ q +:+ "] || []).push([") in
  let ids := Text (JSON.stringify (JSON.Array (chunk_ids (chunk rc))) +:+ ",") in
  let call := Text (g +:+ "[" +:+ h +:+ "](") in
  let id := Text (JSON.stringify (chunk_id (chunk rc)) +:+ ",") in
  let serialized := Text ("," +:+ JSON.stringify (JSON.Array entries)) in
  (isHotUpdateChunk (chunk rc) = false ->
     (entries = [] -> runtimeModules = [] ->
        renderChunk_tap modules rc = [push; ids; Child modules; Text "])"])
     /\ (entries <> [] -> runtimeModules = [] ->
        renderChunk_tap modules rc = [push; ids; Child modules; serialized; Text "])"])
     /\ (entries = [] -> runtimeModules <> [] ->
        renderChunk_tap modules rc
        = [push; ids; Child modules; Text ",0"; Text ("," +:+ lf); Child runtime; Text "])"])
     /\ (entries <> [] -> runtimeModules <> [] ->
        renderChunk_tap modules rc
        = [push; ids; Child modules; serialized; Text ("," +:+ lf); Child runtime; Text "])"]))
  /\ (isHotUpdateChunk (chunk rc) = true ->
     (runtimeModules = [] ->
        renderChunk_tap modules rc = [call; id; Child modules; Text ")"])
     /\ (runtimeModules <> [] ->
        renderChunk_tap modules rc
        = [call; id; Child modules; Text ("," +:+ lf); Child runtime; Text ")"])).
Proof.
  cbn zeta. split; intros Hhot; unfold renderChunk_tap; rewrite Hhot.
  - repeat split.
    + intros He Hrm. rewrite He, (runtimePart_of_none _ Hrm). reflexivity.
    + intros He Hrm. rewrite (entriesPart_of_some _ He), (runtimePart_of_none _ Hrm). reflexivity.
    + intros He Hrm. rewrite He, (runtimePart_of_some _ Hrm). reflexivity.
    + intros He Hrm. rewrite (entriesPart_of_some _ He), (runtimePart_of_some _ Hrm). reflexivity.
  - split.
    + intros Hrm. rewrite (runtimePart_of_none _ Hrm). reflexivity.
    + intros Hrm. rewrite (runtimePart_of_some _ Hrm). reflexivity.
Qed.

End ManifestEmitterProps.

(** ** Strings *)

Lemma append_cons (x : ascii) (a b : string) : String x a +:+ b = String x (a +:+ b).
Proof. reflexivity. Qed.

Lemma append_nil_r (s : string) : s +:+ "" = s.
Proof. induction s as [|a s IH]; [reflexivity|]. by rewrite append_cons, IH. Qed.

Lemma append_assoc (a b c : string) : (a +:+ b) +:+ c = a +:+ (b +:+ c).
Proof. induction a as [|x a IH]; [reflexivity|]. by rewrite !append_cons, IH. Qed.

Lemma list_ascii_of_append (a b : string) :
  list_ascii_of_string (a +:+ b) = list_ascii_of_string a ++ list_ascii_of_string b.
Proof. induction a as [|x a IH]; [reflexivity|]. rewrite append_cons. cbn. by rewrite IH. Qed.

Lemma list_ascii_of_string_inj (a b : string) :
  list_ascii_of_string a = list_ascii_of_string b -> a = b.
Proof.
  intros Heq. rewrite <- (string_of_list_ascii_of_string a), Heq.
  apply string_of_list_ascii_of_string.
Qed.

Lemma append_inv_l (a x y : string) : a +:+ x = a +:+ y -> x = y.
Proof. apply String.app_inj. Qed.

Lemma append_inv_r (b x y : string) : x +:+ b = y +:+ b -> x = y.
Proof.
  intros Heq. apply list_ascii_of_string_inj.
  apply (f_equal list_ascii_of_string) in Heq.
  rewrite !list_ascii_of_append in Heq. by apply app_inv_tail in Heq.
Qed.

Lemma join_empty_cons (x : string) (l : list string) : join "" (x :: l) = x +:+ join "" l.
Proof. destruct l; cbn [join]; [by rewrite append_nil_r|reflexivity]. Qed.

Lemma join_empty_app (a b : list string) : join "" (a ++ b) = join "" a +:+ join "" b.
Proof.
  induction a as [|x a IH]; [reflexivity|].
  cbn [app]. by rewrite !join_empty_cons, IH, append_assoc.
Qed.

(** ** Hash contributor *)

Section HashContributorProps.
Context `{!JsonpHelpers.t}.

Lemma chunkHash_tap_runtime (c : Chunk) (hash : Hash) (ctx : RenderContext) :
  hasRuntime c = true -> chunkHash_tap c hash ctx = hash.
Proof. intros Hrt. unfold chunkHash_tap. by rewrite Hrt. Qed.

Lemma chunkHash_tap_updates (c : Chunk) (hash : Hash) (ctx : RenderContext) :
  hasRuntime c = false ->
  chunkHash_tap c hash ctx = hash ++ fed_strings c ctx.
Proof.
  intros Hrt. unfold chunkHash_tap, Hash_update, fed_strings. rewrite Hrt.
  by rewrite <- !app_assoc.
Qed.

Lemma chunkHash_tap_content (c : Chunk) (hash : Hash) (ctx : RenderContext) :
  hasRuntime c = false ->
  Hash_content (chunkHash_tap c hash ctx)
  = Hash_content hash +:+ "JsonpTemplatePlugin1" +:+ hashed_inputs c ctx.
Proof.
  intros Hrt. rewrite chunkHash_tap_updates by done.
  unfold Hash_content. rewrite join_empty_app. by f_equal.
Qed.

(** C8, as the code has it. A chunk that bootstraps the module system
    leaves the hash untouched.  For any other chunk the contributor feeds,
    in this order and nothing else, the component identifier, the format
    version, the serialized entry info, the queue name, the hot-update
    function name and the global-object expression.  The updates are
    streamed, so what is contributed is their concatenation: it is the
    same for two chunks whose four inputs are the same (whatever else
    differs, the code of their modules included), and it differs as soon
    as exactly one of the four inputs differs. *)
Theorem chunkHash_contribution (c1 c2 : Chunk) (hash : Hash) (ctx1 ctx2 : RenderContext) :
  let entryInfo c ctx :=
    JSON.stringify (JSON.Array (JsonpHelpers.getEntryInfo (chunkGraph ctx) c)) in
  let queue ctx := jsonpFunction (outputOptions ctx) in
  let hot ctx := hotUpdateFunction (outputOptions ctx) in
  let global ctx := globalObject (outputOptions ctx) in
  (hasRuntime c1 = true -> chunkHash_tap c1 hash ctx1 = hash)
  /\ (hasRuntime c1 = false ->
      chunkHash_tap c1 hash ctx1
      = hash ++ ["JsonpTemplatePlugin"; "1"; entryInfo c1 ctx1; queue ctx1; hot ctx1; global ctx1])
  /\ (hasRuntime c1 = false -> hasRuntime c2 = false ->
      (entryInfo c1 ctx1 = entryInfo c2 ctx2 -> queue ctx1 = queue ctx2 ->
       hot ctx1 = hot ctx2 -> global ctx1 = global ctx2 ->
       chunkHash_tap c1 hash ctx1 = chunkHash_tap c2 hash ctx2)
      /\ (Hash_content (chunkHash_tap c1 hash ctx1) = Hash_content (chunkHash_tap c2 hash ctx2)
          <-> hashed_inputs c1 ctx1 = hashed_inputs c2 ctx2)
      /\ (entryInfo c1 ctx1 <> entryInfo c2 ctx2 -> queue ctx1 = queue ctx2 ->
          hot ctx1 = hot ctx2 -> global ctx1 = global ctx2 ->
          Hash_content (chunkHash_tap c1 hash ctx1) <> Hash_content (chunkHash_tap c2 hash ctx2))
      /\ (entryInfo c1 ctx1 = entryInfo c2 ctx2 -> queue ctx1 <> queue ctx2 ->
          hot ctx1 = hot ctx2 -> global ctx1 = global ctx2 ->
          Hash_content (chunkHash_tap c1 hash ctx1) <> Hash_content (chunkHash_tap c2 hash ctx2))
      /\ (entryInfo c1 ctx1 = entryInfo c2 ctx2 -> queue ctx1 = queue ctx2 ->
          hot ctx1 <> hot ctx2 -> global ctx1 = global ctx2 ->
          Hash_content (chunkHash_tap c1 hash ctx1) <> Hash_content (chunkHash_tap c2 hash ctx2))
      /\ (entryInfo c1 ctx1 = entryInfo c2 ctx2 -> queue ctx1 = queue ctx2 ->
          hot ctx1 = hot ctx2 -> global ctx1 <> global ctx2 ->
          Hash_content (chunkHash_tap c1 hash ctx1) <> Hash_content (chunkHash_tap c2 hash ctx2))).
Proof.
  cbn zeta. split; [apply chunkHash_tap_runtime|]. split; [apply chunkHash_tap_updates|].
  intros Hrt1 Hrt2.
  assert (Hiff : Hash_content (chunkHash_tap c1 hash ctx1)
                 = Hash_content (chunkHash_tap c2 hash ctx2)
                 <-> hashed_inputs c1 ctx1 = hashed_inputs c2 ctx2).
  { rewrite !chunkHash_tap_content by done. split.
    - intros Heq. by do 2 apply append_inv_l in Heq.
    - by intros ->. }
  split; [|split; [exact Hiff|]].
  - intros He Hq Hh Hg. rewrite !chunkHash_tap_updates by done.
    unfold fed_strings. by rewrite He, Hq, Hh, Hg.
  - unfold hashed_inputs in Hiff. repeat split; intros He Hq Hh Hg Heq; apply Hiff in Heq.
    + rewrite Hq, Hh, Hg in Heq. rewrite <- !append_assoc in Heq.
      by do 3 apply append_inv_r in Heq.
    + rewrite He, Hh, Hg in Heq. apply append_inv_l in Heq.
      rewrite <- !append_assoc in Heq. by do 2 apply append_inv_r in Heq.
    + rewrite He, Hq, Hg in Heq. do 2 apply append_inv_l in Heq.
      by apply append_inv_r in Heq.
    + rewrite He, Hq, Hh in Heq. by do 3 apply append_inv_l in Heq.
Qed.

End HashContributorProps.

(** ** Extension hook registry *)

Lemma getCompilationHooks_foreign (description : string) (r : Registry) :
  getCompilationHooks (ForeignValue description) r
  = (inl (TypeError "The 'compilation' argument must be an instance of Compilation"), r).
Proof. reflexivity. Qed.

Lemma getCompilationHooks_cached (c : positive) (hooks : JsonpCompilationPluginHooks.t)
    (r : Registry) :
  compilationHooksMap r !! c = Some hooks ->
  getCompilationHooks (CompilationInstance c) r = (inr hooks, r).
Proof. intros Hc. cbn. by rewrite Hc. Qed.

(** An entry of the WeakMap, once set, survives every later call. *)
Lemma getCompilationHooks_keeps (v : JsValue) (c : positive)
    (hooks : JsonpCompilationPluginHooks.t) (r : Registry) :
  compilationHooksMap r !! c = Some hooks ->
  compilationHooksMap (snd (getCompilationHooks v r)) !! c = Some hooks.
Proof.
  intros Hc. destruct v as [c'|d]; cbn; [|done].
  destruct (compilationHooksMap r !! c') eqn:Hc'; cbn; [done|].
  rewrite lookup_insert_ne; [done|]. intros ->. congruence.
Qed.

Lemma registry_after_keeps (calls : list JsValue) (c : positive)
    (hooks : JsonpCompilationPluginHooks.t) (r : Registry) :
  compilationHooksMap r !! c = Some hooks ->
  compilationHooksMap (registry_after calls r) !! c = Some hooks.
Proof.
  revert r. induction calls as [|v calls IH]; intros r Hc; [done|].
  cbn. apply IH. by apply getCompilationHooks_keeps.
Qed.

Lemma empty_registry_allocated : allocated empty_registry.
Proof. split; intros *; cbn; by rewrite lookup_empty. Qed.

Lemma getCompilationHooks_allocated (v : JsValue) (r : Registry) :
  allocated r -> allocated (snd (getCompilationHooks v r)).
Proof.
  intros [Hheap Hmap]. destruct v as [c|d]; cbn; [|done].
  destruct (compilationHooksMap r !! c) eqn:Hc; cbn; [done|]. split.
  - intros k hook. cbn. rewrite !lookup_insert. repeat case_decide; try lia.
    intros Hk. specialize (Hheap _ _ Hk). lia.
  - intros c' hooks k. cbn. rewrite lookup_insert. case_decide.
    + intros [= <-]. unfold hook_refs. cbn. rewrite !elem_of_cons, elem_of_nil. lia.
    + intros Hc' Hk. specialize (Hmap _ _ _ Hc' Hk). lia.
Qed.

Lemma registry_after_allocated (calls : list JsValue) (r : Registry) :
  allocated r -> allocated (registry_after calls r).
Proof.
  revert r. induction calls as [|v calls IH]; intros r Hr; [done|].
  cbn. apply IH. by apply getCompilationHooks_allocated.
Qed.

(** C9. A value that is not a Compilation makes the call fail with a
    TypeError and leaves the registry as it was.  For a Compilation with no
    entry yet, the call allocates four waterfall hooks, pairwise distinct
    objects with their own empty tap lists, shared with no other
    compilation, and caches the hooks object under the compilation; from
    then on, whatever calls come in between, a call with the same
    compilation returns that very hooks object and changes nothing. *)
Theorem getCompilationHooks_contract :
  (forall description r,
     getCompilationHooks (ForeignValue description) r
     = (inl (TypeError "The 'compilation' argument must be an instance of Compilation"), r))
  /\ (forall c r,
      compilationHooksMap r !! c = None ->
      exists hooks r',
        getCompilationHooks (CompilationInstance c) r = (inr hooks, r')
        /\ compilationHooksMap r' = <[c := hooks]> (compilationHooksMap r)
        /\ NoDup (hook_refs hooks)
        /\ waterfall_hooks r' !! JsonpCompilationPluginHooks.jsonpScript hooks
           = Some {| hook_args := ["source"; "chunk"; "hash"]; hook_taps := [] |}
        /\ waterfall_hooks r' !! JsonpCompilationPluginHooks.linkPreload hooks
           = Some {| hook_args := ["source"; "chunk"; "hash"]; hook_taps := [] |}
        /\ waterfall_hooks r' !! JsonpCompilationPluginHooks.linkPrefetch hooks
           = Some {| hook_args := ["source"; "chunk"; "hash"]; hook_taps := [] |}
        /\ waterfall_hooks r' !! JsonpCompilationPluginHooks.mutateTag hooks
           = Some {| hook_args := ["tag"; "attributes"]; hook_taps := [] |}
        /\ (allocated r ->
            forall k, k ∈ hook_refs hooks ->
              waterfall_hooks r !! k = None
              /\ forall c' hooks', compilationHooksMap r !! c' = Some hooks' ->
                   k ∉ hook_refs hooks'))
  /\ (forall c r hooks calls,
      compilationHooksMap r !! c = Some hooks ->
      let r' := registry_after calls r in
      getCompilationHooks (CompilationInstance c) r' = (inr hooks, r'))
  /\ (forall calls, allocated (registry_after calls empty_registry)).
Proof.
  split; [exact getCompilationHooks_foreign|]. split; [|split].
  - intros c r Hc. cbn. rewrite Hc. cbn. eexists _, _. split; [reflexivity|]. cbn.
    split; [reflexivity|]. split.
    { unfold hook_refs. cbn. rewrite !NoDup_cons, !not_elem_of_cons.
      repeat split; try lia; try apply not_elem_of_nil. apply NoDup_nil_2. }
    repeat apply conj;
      try (repeat (rewrite lookup_insert_ne by lia); by rewrite lookup_insert_eq).
    intros [Hheap Hmap] k Hk. unfold hook_refs in Hk. cbn in Hk.
    rewrite !elem_of_cons, elem_of_nil in Hk. split.
    + destruct (waterfall_hooks r !! k) as [hook|] eqn:Hlook; [|done].
      specialize (Hheap _ _ Hlook). lia.
    + intros c' hooks' Hc' Hin. specialize (Hmap _ _ _ Hc' Hin). lia.
  - intros c r hooks calls Hc. cbn zeta.
    apply getCompilationHooks_cached. by apply registry_after_keeps.
  - intros calls. apply registry_after_allocated, empty_registry_allocated.
Qed.

(** ** Runtime-requirement listeners *)

Section ListenerProps.
Context `{!RuntimeGlobals.t} `{!JsonpHelpers.t}.
Variable hooks : JsonpCompilationPluginHooks.t.

Lemma handler_first (c : Chunk) (S : gset string) (st : PluginState) :
  chunk_ref c ∉ onceForChunkSet st ->
  handler hooks c S st
  = (S ∪ baseline,
     {| onceForChunkSet := onceForChunkSet st ∪ {[chunk_ref c]};
        runtimeModules := runtimeModules st ++ [(chunk_ref c, chunkLoadingModule hooks)] |}).
Proof.
  intros Hfresh. unfold handler. rewrite decide_False by done.
  unfold Set_add, addRuntimeModule, WeakSet_add, baseline. cbn. f_equal. set_solver.
Qed.

Lemma handler_again (c : Chunk) (S : gset string) (st : PluginState) :
  chunk_ref c ∈ onceForChunkSet st -> handler hooks c S st = (S, st).
Proof. intros Hin. unfold handler. by rewrite decide_True. Qed.

Lemma fire_handler (t : Trigger) (c : Chunk) (S : gset string) (st : PluginState) :
  fire hooks t c S st
  = (fst (handler hooks c S st) ∪ own_requirements t, snd (handler hooks c S st)).
Proof.
  unfold fire, call_taps. destruct t; cbn [taps_for fold_left];
    unfold ensureChunkHandlers_tap, hmrDownloadUpdateHandlers_tap, hmrDownloadManifest_tap,
      Set_add, own_requirements; cbn [fst snd]; f_equal; set_solver.
Qed.

Lemma attached_to_snoc (c : Chunk) (st : PluginState) (ref : positive) (m : RuntimeModule) :
  attached_to c
    {| onceForChunkSet := onceForChunkSet st ∪ {[ref]};
       runtimeModules := runtimeModules st ++ [(ref, m)] |}
  = attached_to c st ++ (if Pos.eqb ref (chunk_ref c) then [m] else []).
Proof.
  unfold attached_to. cbn [runtimeModules]. rewrite List.filter_app, map_app. cbn.
  by destruct (Pos.eqb ref (chunk_ref c)).
Qed.

(** A firing keeps the marker and the attachments in step. *)
Lemma fire_keeps_marker_in_step (t : Trigger) (c' : Chunk) (S : gset string) (st : PluginState) :
  marker_matches_modules hooks st ->
  marker_matches_modules hooks (snd (fire hooks t c' S st)).
Proof.
  intros Hinv c. rewrite fire_handler. cbn [snd].
  destruct (decide (chunk_ref c' ∈ onceForChunkSet st)) as [Hin|Hout].
  - rewrite handler_again by done. apply Hinv.
  - rewrite handler_first by done. cbn [snd onceForChunkSet]. rewrite attached_to_snoc.
    destruct (Pos.eqb_spec (chunk_ref c') (chunk_ref c)) as [Heq|Hne].
    + rewrite decide_True by set_solver.
      specialize (Hinv c). rewrite decide_False in Hinv by congruence. by rewrite Hinv.
    + specialize (Hinv c). rewrite app_nil_r.
      destruct (decide (chunk_ref c ∈ onceForChunkSet st)).
      * by rewrite decide_True by set_solver.
      * by rewrite decide_False by set_solver.
Qed.

Lemma fire_marks (t : Trigger) (c' : Chunk) (S : gset string) (st : PluginState) :
  onceForChunkSet (snd (fire hooks t c' S st)) = onceForChunkSet st ∪ {[chunk_ref c']}.
Proof.
  rewrite fire_handler. cbn [snd].
  destruct (decide (chunk_ref c' ∈ onceForChunkSet st)) as [Hin|Hout].
  - rewrite handler_again by done. set_solver.
  - by rewrite handler_first.
Qed.

Lemma after_firings_cons (t : Trigger) (c : Chunk) (S : gset string)
    (firings : list (Trigger * Chunk * gset string)) (st : PluginState) :
  after_firings hooks ((t, c, S) :: firings) st
  = after_firings hooks firings (snd (fire hooks t c S st)).
Proof. reflexivity. Qed.

Lemma after_firings_marker (firings : list (Trigger * Chunk * gset string)) (st : PluginState) :
  marker_matches_modules hooks st ->
  marker_matches_modules hooks (after_firings hooks firings st).
Proof.
  revert st. induction firings as [|[[t c'] S] firings IH]; intros st Hinv; [done|].
  cbn. apply IH. by apply fire_keeps_marker_in_step.
Qed.

Lemma after_firings_marked (firings : list (Trigger * Chunk * gset string)) (c : Chunk)
    (st : PluginState) :
  chunk_ref c ∈ onceForChunkSet (after_firings hooks firings st)
  <-> chunk_ref c ∈ onceForChunkSet st \/ fired_for c firings = true.
Proof.
  revert st. induction firings as [|[[t c'] S] firings IH]; intros st.
  - cbn. naive_solver.
  - rewrite after_firings_cons, IH, fire_marks. cbn [fired_for existsb fst snd].
    rewrite orb_true_iff, Pos.eqb_eq. fold (fired_for c firings). set_solver.
Qed.

Lemma initial_state_marker : marker_matches_modules hooks initial_state.
Proof. intros c. cbn. by rewrite decide_False by set_solver. Qed.

(** C3. In any history of firings of the three triggers, the first
    firing for a chunk adds, through the shared handler, exactly the two
    baseline capabilities to the set of that chunk and attaches exactly one
    chunk-loading runtime module to it; any later firing for the chunk
    adds no baseline capability and attaches nothing, so the chunk keeps
    exactly one such module however often the triggers fire.  First and
    later are told apart by the marker alone: in any state the handler
    acts on an unmarked chunk and leaves a marked one alone. *)
Theorem handler_runs_once_per_chunk (firings : list (Trigger * Chunk * gset string))
    (t : Trigger) (c : Chunk) (S : gset string) (st0 : PluginState) :
  let st := after_firings hooks firings initial_state in
  (fired_for c firings = false ->
     fst (handler hooks c S st) = S ∪ baseline
     /\ fst (fire hooks t c S st) = S ∪ baseline ∪ own_requirements t
     /\ attached_to c st = []
     /\ attached_to c (snd (fire hooks t c S st)) = [chunkLoadingModule hooks])
  /\ (fired_for c firings = true ->
     handler hooks c S st = (S, st)
     /\ fire hooks t c S st = (S ∪ own_requirements t, st)
     /\ attached_to c st = [chunkLoadingModule hooks])
  /\ attached_to c (after_firings hooks (firings ++ [(t, c, S)]) initial_state)
     = [chunkLoadingModule hooks]
  /\ (chunk_ref c ∉ onceForChunkSet st0 ->
      handler hooks c S st0
      = (S ∪ baseline,
         {| onceForChunkSet := onceForChunkSet st0 ∪ {[chunk_ref c]};
            runtimeModules := runtimeModules st0 ++ [(chunk_ref c, chunkLoadingModule hooks)] |}))
  /\ (chunk_ref c ∈ onceForChunkSet st0 -> handler hooks c S st0 = (S, st0)).
Proof.
  cbn zeta.
  pose proof (after_firings_marker firings _ initial_state_marker) as Hinv.
  pose proof (after_firings_marked firings c initial_state) as Hmark.
  set (st := after_firings hooks firings initial_state) in *.
  split; [|split; [|split; [|split]]].
  - intros Hnot.
    assert (Hout : chunk_ref c ∉ onceForChunkSet st).
    { rewrite Hmark, Hnot. cbn. set_solver. }
    pose proof (Hinv c) as Hc. rewrite decide_False in Hc by done.
    rewrite fire_handler, handler_first by done. cbn [fst snd].
    rewrite attached_to_snoc, Hc, Pos.eqb_refl. done.
  - intros Hyes.
    assert (Hin : chunk_ref c ∈ onceForChunkSet st) by (apply Hmark; by right).
    pose proof (Hinv c) as Hc. rewrite decide_True in Hc by done.
    by rewrite fire_handler, handler_again.
  - unfold after_firings. rewrite fold_left_app. cbn [fold_left fst snd].
    fold (after_firings hooks firings initial_state). fold st.
    pose proof (fire_keeps_marker_in_step t c S st Hinv c) as Hc.
    rewrite decide_True in Hc; [done|]. rewrite fire_marks. set_solver.
  - apply handler_first.
  - apply handler_again.
Qed.

(** Unfold the listeners and decide every marker test and policy. *)
Ltac listener_cases c st :=
  unfold listener, additionalTreeRuntimeRequirements_tap, handler, ensureChunkHandlers_tap,
    hmrDownloadUpdateHandlers_tap, hmrDownloadManifest_tap, Set_add, WeakSet_add,
    addRuntimeModule;
  destruct (JsonpHelpers.needEntryDeferringCode c);
  destruct (decide (chunk_ref c ∈ onceForChunkSet st)) as [Hin|Hout];
  cbn [fst snd onceForChunkSet runtimeModules];
  repeat case_decide;
  cbn [fst snd onceForChunkSet runtimeModules];
  try (exfalso; set_solver);
  first [reflexivity | f_equal; first [reflexivity | set_solver | f_equal; set_solver]].

(** Any two listeners commute. *)
Lemma listener_swap (a b : ListenerName) (c : Chunk) (S : gset string) (st : PluginState) :
  listener hooks b c (fst (listener hooks a c S st)) (snd (listener hooks a c S st))
  = listener hooks a c (fst (listener hooks b c S st)) (snd (listener hooks b c S st)).
Proof. destruct a, b; try reflexivity; listener_cases c st. Qed.

(** Running a listener again right away changes nothing. *)
Lemma listener_idempotent (a : ListenerName) (c : Chunk) (S : gset string) (st : PluginState) :
  listener hooks a c (fst (listener hooks a c S st)) (snd (listener hooks a c S st))
  = listener hooks a c S st.
Proof. destruct a; listener_cases c st. Qed.

Lemma propagate_cons (a : ListenerName) (order : list ListenerName) (c : Chunk)
    (S : gset string) (st : PluginState) :
  propagate hooks (a :: order) c S st
  = propagate hooks order c (fst (listener hooks a c S st)) (snd (listener hooks a c S st)).
Proof.
  unfold propagate, call_taps. cbn [map fold_left fst snd].
  by destruct (listener hooks a c S st).
Qed.

Lemma propagate_nil (c : Chunk) (S : gset string) (st : PluginState) :
  propagate hooks [] c S st = (S, st).
Proof. reflexivity. Qed.

Lemma propagate_permutation (order order' : list ListenerName) (c : Chunk) :
  Permutation order order' ->
  forall S st, propagate hooks order c S st = propagate hooks order' c S st.
Proof.
  induction 1 as [|a l l' _ IH|a b l|l l' l'' _ IH1 _ IH2]; intros S st.
  - reflexivity.
  - rewrite !propagate_cons. apply IH.
  - rewrite !propagate_cons. by rewrite listener_swap.
  - by rewrite IH1.
Qed.

Lemma propagate_app (order order' : list ListenerName) (c : Chunk) (S : gset string)
    (st : PluginState) :
  propagate hooks (order ++ order') c S st
  = propagate hooks order' c (fst (propagate hooks order c S st))
      (snd (propagate hooks order c S st)).
Proof.
  revert S st. induction order as [|a order IH]; intros S st; [reflexivity|].
  cbn [app]. rewrite !propagate_cons. apply IH.
Qed.

Lemma propagate_twice (order : list ListenerName) (c : Chunk) (S : gset string)
    (st : PluginState) :
  propagate hooks (order ++ order) c S st = propagate hooks order c S st.
Proof.
  revert S st. induction order as [|a order IH]; intros S st; [reflexivity|].
  transitivity (propagate hooks ([a; a] ++ (order ++ order)) c S st).
  - apply propagate_permutation. cbn. constructor.
    symmetry. apply Permutation_middle.
  - rewrite propagate_app, !propagate_cons, !propagate_nil, listener_idempotent.
    apply IH.
Qed.

Lemma listener_additive (a : ListenerName) (c : Chunk) (S : gset string) (st : PluginState) :
  S ⊆ fst (listener hooks a c S st).
Proof.
  destruct a;
    unfold listener, additionalTreeRuntimeRequirements_tap, handler, ensureChunkHandlers_tap,
      hmrDownloadUpdateHandlers_tap, hmrDownloadManifest_tap, Set_add;
    destruct (JsonpHelpers.needEntryDeferringCode c);
    repeat case_decide; cbn [fst snd]; set_solver.
Qed.

Lemma propagate_additive (order : list ListenerName) (c : Chunk) (S : gset string)
    (st : PluginState) :
  S ⊆ fst (propagate hooks order c S st).
Proof.
  revert S st. induction order as [|a order IH]; intros S st; [done|].
  rewrite propagate_cons. etrans; [apply (listener_additive a c S st)|apply IH].
Qed.

(** C4. For every chunk and capability set, one pass of the five
    listeners ends in the same capability set (and the same marker and
    attachments) in whatever order they run; the pass only adds to the set;
    and a second pass, in any order, on the outcome of the first changes
    nothing. *)
Theorem propagation_order_independent (order order' : list ListenerName) (c : Chunk)
    (S : gset string) (st : PluginState) :
  Permutation order order' ->
  propagate hooks order c S st = propagate hooks order' c S st
  /\ S ⊆ fst (propagate hooks order c S st)
  /\ propagate hooks order' c (fst (propagate hooks order c S st))
       (snd (propagate hooks order c S st))
     = propagate hooks order c S st.
Proof.
  intros Hperm. split; [by apply propagate_permutation|]. split; [apply propagate_additive|].
  rewrite <- propagate_app.
  rewrite (propagate_permutation (order ++ order') (order ++ order)).
  - apply propagate_twice.
  - apply Permutation_app_head. by symmetry.
Qed.

End ListenerProps.

(** ** The emitted loader *)

Section EmittedLoaderProps.
Variable chunkId : string.
Variable loadingEnded : nat -> bool.

(** A stimulus either finds no completion chunkId loadingEnded handler to run, or runs it. *)
Lemma deliver_cases (s : Stimulus) (l : Loader) :
  deliver chunkId loadingEnded s l = l \/ exists event, deliver chunkId loadingEnded s l = completion chunkId loadingEnded event l.
Proof.
  destruct s as [e|e|]; cbn.
  - destruct (script_onload l) as [[| |name]|]; cbn; eauto.
  - destruct (script_onerror l) as [[| |name]|]; cbn; eauto.
  - destruct (onScriptComplete l); cbn; eauto.
Qed.

(** Once the handler has run, nothing reaches it any more. *)
Lemma deliver_after_completion (s : Stimulus) (event : option Event) (l : Loader) :
  deliver chunkId loadingEnded s (completion chunkId loadingEnded event l) = completion chunkId loadingEnded event l.
Proof. by destruct s. Qed.

Lemma deliver_all_after_completion (stimuli : list Stimulus) (event : option Event) (l : Loader) :
  deliver_all chunkId loadingEnded stimuli (completion chunkId loadingEnded event l) = completion chunkId loadingEnded event l.
Proof.
  induction stimuli as [|s stimuli IH]; [reflexivity|].
  cbn. rewrite deliver_after_completion. exact IH.
Qed.

Lemma deliver_all_cons (s : Stimulus) (stimuli : list Stimulus) (l : Loader) :
  deliver_all chunkId loadingEnded (s :: stimuli) l = deliver_all chunkId loadingEnded stimuli (deliver chunkId loadingEnded s l).
Proof. reflexivity. Qed.

(** Over any sequence of stimuli the handler body runs for at most one
    of them, the first that reaches it. *)
Lemma deliver_all_cases (stimuli : list Stimulus) (l : Loader) :
  deliver_all chunkId loadingEnded stimuli l = l
  \/ exists before s after event,
       stimuli = before ++ s :: after
       /\ deliver_all chunkId loadingEnded before l = l
       /\ deliver chunkId loadingEnded s l = completion chunkId loadingEnded event l
       /\ deliver_all chunkId loadingEnded stimuli l = completion chunkId loadingEnded event l.
Proof.
  induction stimuli as [|s stimuli IH]; [by left|].
  rewrite deliver_all_cons. destruct (deliver_cases s l) as [Hsame|[event Hrun]].
  - rewrite Hsame. destruct IH as [IH|(before & s' & after & event & -> & Hb & Hs & Hall)].
    + by left.
    + right. exists (s :: before), s', after, event. repeat split; try done.
      by rewrite deliver_all_cons, Hsame.
  - right. exists [], s, stimuli, event. rewrite Hrun.
    repeat split; try done. apply deliver_all_after_completion.
Qed.

(** C2. For every load attempt and every sequence of load events,
    error events and timer callbacks, at most one of them runs the body of
    the completion chunkId loadingEnded handler: the first run replaces the binding by the
    no-op, clears both listener slots and cancels the timer, so that
    [loadingEnded] is called, and an error reported, at most once, and
    whatever is delivered afterwards changes nothing. *)
Theorem completion_runs_at_most_once (url : string) (onload onerror : option Callback)
    (stimuli : list Stimulus) :
  let start := armed url onload onerror in
  let final := deliver_all chunkId loadingEnded stimuli start in
  (loadingEnded_calls final <= 1 /\ List.length (reported final) <= 1)
  /\ (final = start
      \/ exists before s after event,
           stimuli = before ++ s :: after
           /\ deliver_all chunkId loadingEnded before start = start
           /\ final = completion chunkId loadingEnded event start)
  /\ (forall event l,
        let l' := completion chunkId loadingEnded event l in
        onScriptComplete l' = Noop
        /\ script_onload l' = None
        /\ script_onerror l' = None
        /\ timeout_pending l' = false
        /\ forall later, deliver_all chunkId loadingEnded later l' = l').
Proof.
  cbn zeta. split; [|split].
  - destruct (deliver_all_cases stimuli (armed url onload onerror))
      as [->|(before & s & after & event & _ & _ & _ & ->)]; cbn; [lia|].
    destruct (loadingEnded 0); cbn; lia.
  - destruct (deliver_all_cases stimuli (armed url onload onerror))
      as [->|(before & s & after & event & Hsplit & Hb & _ & Hall)]; [by left|].
    right. by exists before, s, after, event.
  - intros event l. repeat split. intros later. apply deliver_all_after_completion.
Qed.

(** The body of the handler, run on an event whose target has a [src].
    When [loadingEnded()] answers with a reporter, the handler writes into
    the pre-allocated error the message
    [Loading chunk <chunkId> failed.\n(<kind>: <address>)], the name
    [ChunkLoadError], the kind as [type] and the address as [request], and
    hands that error to the reporter; the kind is [missing] for an event of
    type [load], the type of the event otherwise, [timeout] for the timer,
    and the address is the [src] of the event target.  When
    [loadingEnded()] answers with a falsy value nothing is written and
    nothing is reported. *)
Theorem failure_is_normalized (e : Event) (address : string) (l : Loader) :
  event_target e = Element address ->
  let kind := if String.eqb (event_type e) "load" then "missing" else event_type e in
  let l' := completion chunkId loadingEnded (Some e) l in
  (loadingEnded (loadingEnded_calls l) = true ->
     error l'
     = {| message :=
            "Loading chunk " +:+ chunkId +:+ " failed." +:+ lf
            +:+ "(" +:+ kind +:+ ": " +:+ address +:+ ")";
          name := "ChunkLoadError";
          type := StringVal kind;
          request := StringVal address |}
     /\ reported l' = reported l ++ [error l'])
  /\ (loadingEnded (loadingEnded_calls l) = false ->
     error l' = error l /\ reported l' = reported l)
  /\ (event_type e = "load" -> kind = "missing")
  /\ (event_type e <> "load" -> kind = event_type e)
  /\ (forall url onload onerror,
        deliver chunkId loadingEnded TimerCallback (armed url onload onerror)
        = completion chunkId loadingEnded (Some {| event_type := "timeout"; event_target := Element url |})
            (armed url onload onerror)).
Proof.
  intros Htarget. cbn zeta. repeat apply conj.
  - intros Hreport. unfold completion. rewrite Hreport. cbn [error].
    unfold populate, realSrc_of, errorType_of. by rewrite Htarget.
  - intros Hreport. unfold completion. by rewrite Hreport.
  - intros ->. reflexivity.
  - intros Hne. by apply String.eqb_neq in Hne as ->.
  - reflexivity.
Qed.

(** C7, evaluated. The attribute lines emitted for [onload] and
    [onerror] (lines 164-165) assign the global [o] under the global [n],
    not the completion handler, so each listener slot is empty or holds a
    foreign value.  In that loader a failure event and a load event change
    nothing and report nothing, whatever [loadingEnded] would answer; the
    failure is reported only once the timer runs, and then with the kind
    [timeout], not with the kind of the event. *)
Theorem failure_events_are_dropped (url : string) (onload onerror : option string)
    (e : Event) :
  let start := armed url (Foreign <$> onload) (Foreign <$> onerror) in
  deliver chunkId loadingEnded (ErrorEvent e) start = start
  /\ deliver chunkId loadingEnded (LoadEvent e) start = start
  /\ reported (deliver_all chunkId loadingEnded [ErrorEvent e; LoadEvent e] start) = []
  /\ reported (deliver_all chunkId loadingEnded [ErrorEvent e; TimerCallback] start)
     = (if loadingEnded 0 then [populate chunkId (Some (timeout_event start))] else [])
  /\ type (populate chunkId (Some (timeout_event start))) = StringVal "timeout".
Proof.
  cbn zeta. destruct onload, onerror; cbn; repeat apply conj; try reflexivity;
    by destruct (loadingEnded 0).
Qed.

End EmittedLoaderProps.

(* ===================================================================== *)
(** * Concrete runs                                                       *)
(* ===================================================================== *)

(** The theorems above, applied to the stand-in collaborators. *)

Lemma renderChunk_wire_shapes_witness :
  let rc := Sample.context Sample.plain_chunk Sample.options in
  isHotUpdateChunk (chunk rc) = false
  /\ @JsonpHelpers.getEntryInfo Sample.helpers (chunkGraph rc) (chunk rc) = []
  /\ getChunkRuntimeModulesInOrder (chunkGraph rc) (chunk rc) = []
  /\ ConcatSource_source
       (@renderChunk_tap Sample.template Sample.helpers (RawSource "{}") rc)
     = "(window[" +:+ dq +:+ "webpackJsonp" +:+ dq +:+ "] = window[" +:+ dq +:+ "webpackJsonp"
       +:+ dq +:+ "] || []).push([[1,2],{}])".
Proof.
  cbn zeta. split; [reflexivity|]. split; [reflexivity|]. split; [reflexivity|].
  rewrite (proj1 (proj1 (@renderChunk_wire_shapes Sample.template Sample.helpers
                           (RawSource "{}")
                           (Sample.context Sample.plain_chunk Sample.options))
                   eq_refl) eq_refl eq_refl).
  reflexivity.
Defined.

Lemma renderAttributes_follows_insertion_order_witness :
  let attrs :=
    [{| attr_name := "src"; valueExpr := "url"; guardExpr := None |};
     {| attr_name := "crossOrigin"; valueExpr := "'anonymous'";
        guardExpr := Some "script.src.indexOf(window.location.origin + '/') !== 0" |}] in
  (NoDup (map attr_name attrs)
   /\ forallb (fun a => negb (is_array_index (attr_name a))) attrs = true)
  /\ @renderAttributes Sample.template "script" (spec_of attrs)
     = ["script.src = url;";
        "if (script.src.indexOf(window.location.origin + '/') !== 0) {";
        Sample.tab +:+ "script.crossOrigin = 'anonymous';";
        "}"].
Proof.
  cbn zeta.
  assert (Hnd : NoDup (map attr_name
            [{| attr_name := "src"; valueExpr := "url"; guardExpr := None |};
             {| attr_name := "crossOrigin"; valueExpr := "'anonymous'";
                guardExpr := Some "script.src.indexOf(window.location.origin + '/') !== 0" |}])).
  { apply (bool_decide_unpack _). vm_compute. exact I. }
  split; [split; [exact Hnd|reflexivity]|].
  rewrite (proj1 (@renderAttributes_follows_insertion_order Sample.template "script" _ Hnd
                    eq_refl)).
  reflexivity.
Defined.

(** Read for every attribute name, C5 fails: inserted in the order [b],
    [2], [a], the attribute named [2] is an array index and is emitted
    first. *)
Lemma renderAttributes_array_index_first :
  let attrs :=
    [{| attr_name := "b"; valueExpr := "1"; guardExpr := None |};
     {| attr_name := "2"; valueExpr := "2"; guardExpr := None |};
     {| attr_name := "a"; valueExpr := "3"; guardExpr := None |}] in
  NoDup (map attr_name attrs)
  /\ @renderAttributes Sample.template "el" (spec_of attrs)
     = ["el.2 = 2;"; "el.b = 1;"; "el.a = 3;"]
  /\ @renderAttributes Sample.template "el" (spec_of attrs)
     <> @attribute_blocks Sample.template "el" attrs.
Proof.
  cbn zeta. split; [|split].
  - apply (bool_decide_unpack _). vm_compute. exact I.
  - reflexivity.
  - discriminate.
Qed.

Lemma handler_runs_once_per_chunk_witness :
  let c := Sample.lazy_chunk in
  let first := @fire Sample.runtimeGlobals Sample.hooks EnsureChunkHandlers c ∅ initial_state in
  fired_for c ([] : list (Trigger * Chunk * gset string)) = false
  /\ attached_to c (snd first) = [chunkLoadingModule Sample.hooks]
  /\ fired_for c [(HmrDownloadManifest, c, ∅ : gset string)] = true
  /\ @handler Sample.runtimeGlobals Sample.hooks c ∅
       (@after_firings Sample.runtimeGlobals Sample.hooks [(HmrDownloadManifest, c, ∅)]
          initial_state)
     = (∅, @after_firings Sample.runtimeGlobals Sample.hooks [(HmrDownloadManifest, c, ∅)]
             initial_state).
Proof.
  cbn zeta. split; [reflexivity|]. split; [|split; [reflexivity|]].
  - apply (proj1 (@handler_runs_once_per_chunk Sample.runtimeGlobals Sample.hooks []
                    EnsureChunkHandlers Sample.lazy_chunk ∅ initial_state)).
    reflexivity.
  - apply (proj1 (proj2 (@handler_runs_once_per_chunk Sample.runtimeGlobals Sample.hooks
                           [(HmrDownloadManifest, Sample.lazy_chunk, ∅)]
                           EnsureChunkHandlers Sample.lazy_chunk ∅ initial_state))).
    reflexivity.
Defined.

Lemma propagation_order_independent_witness :
  let order := [SharedHandler; EnsureChunkTap; DeferredEntryTap] in
  let order' := [EnsureChunkTap; SharedHandler; DeferredEntryTap] in
  Permutation order order'
  /\ @propagate Sample.runtimeGlobals Sample.helpers Sample.hooks order Sample.main_chunk ∅
       initial_state
     = @propagate Sample.runtimeGlobals Sample.helpers Sample.hooks order' Sample.main_chunk ∅
         initial_state.
Proof.
  cbn zeta.
  assert (Hperm : Permutation [SharedHandler; EnsureChunkTap; DeferredEntryTap]
                    [EnsureChunkTap; SharedHandler; DeferredEntryTap]) by apply perm_swap.
  split; [exact Hperm|].
  exact (proj1 (@propagation_order_independent Sample.runtimeGlobals Sample.helpers
                  Sample.hooks _ _ Sample.main_chunk ∅ initial_state Hperm)).
Defined.

Lemma failure_is_normalized_witness :
  let e := {| event_type := "error"; event_target := Element "https://cdn.example/7.js" |} in
  let l := armed "https://cdn.example/7.js" (Some Completion) (Some Completion) in
  event_target e = Element "https://cdn.example/7.js"
  /\ reported (completion "7" (fun _ => true) (Some e) l)
     = [{| message :=
             "Loading chunk 7 failed." +:+ lf +:+ "(error: https://cdn.example/7.js)";
           name := "ChunkLoadError";
           type := StringVal "error";
           request := StringVal "https://cdn.example/7.js" |}].
Proof.
  cbn zeta. split; [reflexivity|].
  destruct (proj1 (failure_is_normalized "7" (fun _ => true)
                     {| event_type := "error";
                        event_target := Element "https://cdn.example/7.js" |}
                     "https://cdn.example/7.js"
                     (armed "https://cdn.example/7.js" (Some Completion) (Some Completion))
                     eq_refl) eq_refl) as [Herr Hrep].
  rewrite Hrep, Herr. reflexivity.
Defined.

Lemma chunkHash_contribution_witness :
  let ctx := Sample.context Sample.lazy_chunk Sample.options in
  hasRuntime Sample.lazy_chunk = false
  /\ @chunkHash_tap Sample.helpers Sample.lazy_chunk [] ctx
     = ["JsonpTemplatePlugin"; "1"; "[[7]]"; "webpackJsonp"; "webpackHotUpdate"; "window"].
Proof.
  cbn zeta. split; [reflexivity|].
  rewrite (proj1 (proj2 (@chunkHash_contribution Sample.helpers Sample.lazy_chunk
                           Sample.lazy_chunk []
                           (Sample.context Sample.lazy_chunk Sample.options)
                           (Sample.context Sample.lazy_chunk Sample.options))) eq_refl).
  reflexivity.
Defined.

(** The claim of C8 read as an equivalence fails: renaming the queue
    from [ab] to [a] and the hot-update function from [c] to [bc] changes
    two inputs and leaves the streamed bytes as they were. *)
Lemma chunkHash_same_bytes_for_different_names :
  let c := Sample.lazy_chunk in
  let ctx1 := Sample.context c (Sample.named "ab" "c") in
  let ctx2 := Sample.context c (Sample.named "a" "bc") in
  let changed :=
    JSON.stringify (JSON.Array (@JsonpHelpers.getEntryInfo Sample.helpers (chunkGraph ctx1) c))
    <> JSON.stringify (JSON.Array (@JsonpHelpers.getEntryInfo Sample.helpers (chunkGraph ctx2) c))
    \/ jsonpFunction (outputOptions ctx1) <> jsonpFunction (outputOptions ctx2)
    \/ hotUpdateFunction (outputOptions ctx1) <> hotUpdateFunction (outputOptions ctx2)
    \/ globalObject (outputOptions ctx1) <> globalObject (outputOptions ctx2) in
  hasRuntime c = false
  /\ ~ (Hash_content (@chunkHash_tap Sample.helpers c [] ctx1)
        <> Hash_content (@chunkHash_tap Sample.helpers c [] ctx2)
        <-> changed).
Proof.
  cbn zeta. split; [reflexivity|]. intros [_ Hif]. apply Hif; [|reflexivity].
  right. left. discriminate.
Qed.

Lemma getCompilationHooks_contract_witness :
  compilationHooksMap empty_registry !! 1%positive = None
  /\ exists hooks r',
       getCompilationHooks (CompilationInstance 1) empty_registry = (inr hooks, r')
       /\ getCompilationHooks (CompilationInstance 1)
            (registry_after [ForeignValue "options"; CompilationInstance 2] r')
          = (inr hooks, registry_after [ForeignValue "options"; CompilationInstance 2] r').
Proof.
  split; [reflexivity|].
  destruct (proj1 (proj2 getCompilationHooks_contract) 1%positive empty_registry eq_refl)
    as (hooks & r' & Hcall & Hmap & _).
  exists hooks, r'. split; [exact Hcall|].
  apply (proj2 (proj2 getCompilationHooks_contract)).
  rewrite Hmap. apply lookup_insert_eq.
Defined.

(** The wire shapes of the manifest emitter on the stand-in chunks: a
    chunk with runtime modules and no entries, a chunk with one entry, and
    a hot update. *)
Example renderChunk_zero_placeholder :
  ConcatSource_source
    (@renderChunk_tap Sample.template Sample.helpers (RawSource "{}")
       (Sample.context Sample.main_chunk Sample.options))
  = "(window[" +:+ dq +:+ "webpackJsonp" +:+ dq +:+ "] = window[" +:+ dq +:+ "webpackJsonp"
    +:+ dq +:+ "] || []).push([[1,2],{},0," +:+ lf +:+ "function(__webpack_require__) {}])".
Proof. reflexivity. Qed.

Example renderChunk_entries_third :
  ConcatSource_source
    (@renderChunk_tap Sample.template Sample.helpers (RawSource "{}")
       (Sample.context Sample.lazy_chunk Sample.options))
  = "(window[" +:+ dq +:+ "webpackJsonp" +:+ dq +:+ "] = window[" +:+ dq +:+ "webpackJsonp"
    +:+ dq +:+ "] || []).push([[7],{},[[7]]])".
Proof. reflexivity. Qed.

Example renderChunk_hot_update_call :
  ConcatSource_source
    (@renderChunk_tap Sample.template Sample.helpers (RawSource "{}")
       (Sample.context Sample.hot_chunk Sample.options))
  = "window[" +:+ dq +:+ "webpackHotUpdate" +:+ dq +:+ "](7,{})".
Proof. reflexivity. Qed.

(** A load event and an error event both delivered before the timer, and
    a second load event after it: one report, of kind [missing]. *)
Example both_events_then_timer :
  let load := {| event_type := "load"; event_target := Element "https://cdn.example/7.js" |} in
  let failure := {| event_type := "error"; event_target := Element "https://cdn.example/7.js" |} in
  let final :=
    deliver_all "7" (fun _ => true)
      [LoadEvent load; ErrorEvent failure; TimerCallback; LoadEvent load]
      (armed "https://cdn.example/7.js" (Some Completion) (Some Completion)) in
  loadingEnded_calls final = 1
  /\ map type (reported final) = [StringVal "missing"].
Proof. split; reflexivity. Qed.

(** The timer alone: one report, of kind [timeout], whatever the
    listener slots hold. *)
Example timer_alone :
  map type
    (reported
       (deliver_all "7" (fun _ => true) [TimerCallback; TimerCallback]
          (armed "https://cdn.example/7.js" None (Some (Foreign "o")))))
  = [StringVal "timeout"].
Proof. reflexivity. Qed.

(* ===================================================================== *)
(** * Part III: further properties of the code                            *)
(* ===================================================================== *)

(** ** Listeners: the closed form of a pass *)

Section ListenerHistoryProps.
Context `{!RuntimeGlobals.t} `{!JsonpHelpers.t}.
Variable hooks : JsonpCompilationPluginHooks.t.

(** One listener: its own additions, and the handler's work when it
    reaches the handler on an unmarked chunk. *)
Lemma listener_effect (name : ListenerName) (c : Chunk) (S : gset string) (st : PluginState) :
  listener hooks name c S st
  = if runs_handler name c && bool_decide (chunk_ref c ∉ onceForChunkSet st)
    then (S ∪ own_additions name c ∪ baseline, handled hooks c st)
    else (S ∪ own_additions name c, st).
Proof.
  destruct name;
    unfold listener, runs_handler, own_additions, own_requirements, handled,
      additionalTreeRuntimeRequirements_tap, handler, ensureChunkHandlers_tap,
      hmrDownloadUpdateHandlers_tap, hmrDownloadManifest_tap, Set_add, baseline;
    try destruct (JsonpHelpers.needEntryDeferringCode c);
    cbn [andb];
    try (destruct (decide (chunk_ref c ∈ onceForChunkSet st)) as [Hin|Hout];
         [rewrite bool_decide_eq_false_2 by (by intros ?)
         |rewrite bool_decide_eq_true_2 by done]);
    cbn [fst snd]; f_equal; set_solver.
Qed.

Lemma handled_marked (c : Chunk) (st : PluginState) :
  chunk_ref c ∈ onceForChunkSet (handled hooks c st).
Proof. unfold handled, addRuntimeModule, WeakSet_add. cbn. set_solver. Qed.

(** X1. The outcome of a pass in closed form: the set gains what each
    listener adds by itself, and, when the chunk is unmarked and some
    listener of the pass reaches the shared handler, the two baseline
    capabilities; in that case, and only then, the chunk is marked and the
    chunk-loading module attached.  The order of the listeners does not
    occur in the outcome. *)
Theorem propagate_closed_form (order : list ListenerName) (c : Chunk) (S : gset string)
    (st : PluginState) :
  propagate hooks order c S st
  = if existsb (fun name => runs_handler name c) order
       && bool_decide (chunk_ref c ∉ onceForChunkSet st)
    then (S ∪ pass_additions order c ∪ baseline, handled hooks c st)
    else (S ∪ pass_additions order c, st).
Proof.
  revert S st. induction order as [|name order IH]; intros S st.
  - cbn. unfold pass_additions. cbn. f_equal. set_solver.
  - rewrite propagate_cons, listener_effect.
    unfold pass_additions in *. cbn [map existsb union_list].
    destruct (runs_handler name c) eqn:Hrun; cbn [andb orb].
    + destruct (decide (chunk_ref c ∈ onceForChunkSet st)) as [Hin|Hout].
      * rewrite (bool_decide_eq_false_2 (chunk_ref c ∉ onceForChunkSet st)) by (by intros ?).
        cbn [fst snd]. rewrite IH.
        rewrite (bool_decide_eq_false_2 (chunk_ref c ∉ onceForChunkSet st)) by (by intros ?).
        rewrite !andb_false_r. f_equal. set_solver.
      * rewrite (bool_decide_eq_true_2 (chunk_ref c ∉ onceForChunkSet st)) by done.
        cbn [fst snd]. rewrite IH.
        rewrite (bool_decide_eq_false_2 (chunk_ref c ∉ onceForChunkSet (handled hooks c st)))
          by (intros Hn; apply Hn, handled_marked).
        rewrite andb_false_r. f_equal. set_solver.
    + cbn [fst snd]. rewrite IH.
      destruct (existsb _ order && bool_decide _); f_equal; set_solver.
Qed.


Lemma listener_state (name : ListenerName) (c : Chunk) (S : gset string) (st : PluginState) :
  snd (listener hooks name c S st)
  = if runs_handler name c && bool_decide (chunk_ref c ∉ onceForChunkSet st)
    then handled hooks c st else st.
Proof. rewrite listener_effect. by destruct (_ && _). Qed.

Lemma attached_to_handled (c c' : Chunk) (st : PluginState) :
  attached_to c (handled hooks c' st)
  = attached_to c st
    ++ (if Pos.eqb (chunk_ref c') (chunk_ref c) then [chunkLoadingModule hooks] else []).
Proof.
  unfold attached_to, handled, addRuntimeModule, WeakSet_add. cbn [runtimeModules].
  rewrite List.filter_app, map_app. cbn.
  by destruct (Pos.eqb (chunk_ref c') (chunk_ref c)).
Qed.

Lemma marked_handled (c c' : Chunk) (st : PluginState) :
  chunk_ref c ∈ onceForChunkSet (handled hooks c' st)
  <-> chunk_ref c ∈ onceForChunkSet st \/ chunk_ref c' = chunk_ref c.
Proof. unfold handled, addRuntimeModule, WeakSet_add. cbn. set_solver. Qed.

Lemma listener_keeps_marker (name : ListenerName) (c' : Chunk) (S : gset string)
    (st : PluginState) :
  marker_matches_modules hooks st ->
  marker_matches_modules hooks (snd (listener hooks name c' S st)).
Proof.
  intros Hinv c. rewrite listener_state.
  destruct (runs_handler name c'); cbn [andb]; [|apply Hinv].
  destruct (decide (chunk_ref c' ∈ onceForChunkSet st)) as [Hin|Hout].
  - rewrite bool_decide_eq_false_2 by (by intros ?). apply Hinv.
  - rewrite bool_decide_eq_true_2 by done. rewrite attached_to_handled, (Hinv c).
    destruct (Pos.eqb_spec (chunk_ref c') (chunk_ref c)) as [Heq|Hne].
    + rewrite decide_False by congruence.
      rewrite decide_True; [done|]. apply marked_handled. by right.
    + rewrite app_nil_r. destruct (decide (chunk_ref c ∈ onceForChunkSet st)) as [Hc|Hc].
      * rewrite decide_True; [done|]. apply marked_handled. by left.
      * rewrite decide_False; [done|]. rewrite marked_handled. tauto.
Qed.

Lemma after_calls_cons (x : ListenerName * Chunk * gset string)
    (calls : list (ListenerName * Chunk * gset string)) (st : PluginState) :
  after_calls hooks (x :: calls) st
  = after_calls hooks calls (snd (listener hooks (fst (fst x)) (snd (fst x)) (snd x) st)).
Proof. reflexivity. Qed.

Lemma after_calls_keeps_marker (calls : list (ListenerName * Chunk * gset string))
    (st : PluginState) :
  marker_matches_modules hooks st ->
  marker_matches_modules hooks (after_calls hooks calls st).
Proof.
  revert st. induction calls as [|x calls IH]; intros st Hinv; [done|].
  rewrite after_calls_cons. apply IH. by apply listener_keeps_marker.
Qed.

Lemma after_calls_marked (calls : list (ListenerName * Chunk * gset string)) (c : Chunk)
    (st : PluginState) :
  chunk_ref c ∈ onceForChunkSet (after_calls hooks calls st)
  <-> chunk_ref c ∈ onceForChunkSet st \/ handled_in c calls = true.
Proof.
  revert st. induction calls as [|[[name c'] S] calls IH]; intros st.
  - cbn. split; [tauto|]. intros [Hc|Hf]; [done|discriminate].
  - rewrite after_calls_cons, IH, listener_state. cbn [fst snd handled_in existsb].
    fold (handled_in c calls). rewrite orb_true_iff, andb_true_iff, Pos.eqb_eq.
    destruct (runs_handler name c'); cbn [andb].
    + destruct (decide (chunk_ref c' ∈ onceForChunkSet st)) as [Hin|Hout].
      * rewrite bool_decide_eq_false_2 by (by intros ?).
        split; [tauto|]. intros [Hc|[[Heq _]|Hc]]; [tauto| |tauto]. left. by rewrite <- Heq.
      * rewrite bool_decide_eq_true_2 by done. rewrite marked_handled. tauto.
    + split; [tauto|]. intros [Hc|[[_ Hf]|Hc]]; [tauto|discriminate|tauto].
Qed.

(** X2. After any history of calls of the five listeners, for any
    chunks and sets, a chunk has the chunk-loading module attached exactly
    once if some call reached the shared handler for it, and no module
    otherwise; it is marked in exactly the first case. *)
Theorem one_module_per_handled_chunk (calls : list (ListenerName * Chunk * gset string))
    (c : Chunk) :
  let st := after_calls hooks calls initial_state in
  attached_to c st = (if handled_in c calls then [chunkLoadingModule hooks] else [])
  /\ (chunk_ref c ∈ onceForChunkSet st <-> handled_in c calls = true).
Proof.
  cbn zeta.
  assert (Hmark : chunk_ref c ∈ onceForChunkSet (after_calls hooks calls initial_state)
                  <-> handled_in c calls = true).
  { rewrite after_calls_marked. cbn. split; [|tauto].
    intros [Hc|Hc]; [|done]. by apply not_elem_of_empty in Hc. }
  split; [|exact Hmark].
  rewrite (after_calls_keeps_marker calls initial_state).
  - destruct (handled_in c calls).
    + rewrite decide_True; [done|]. by apply Hmark.
    + rewrite decide_False; [done|]. rewrite Hmark. done.
  - intros c0. cbn. by rewrite decide_False by set_solver.
Qed.

(** X3. A listener called for a chunk only adds: to the set it is
    handed, to the marker set, and at the end of the list of runtime
    modules; the attachments and the marker of every other chunk stay as
    they were. *)
Theorem listener_touches_only_its_chunk (name : ListenerName) (c c' : Chunk) (S : gset string)
    (st : PluginState) :
  let st' := snd (listener hooks name c S st) in
  S ⊆ fst (listener hooks name c S st)
  /\ onceForChunkSet st ⊆ onceForChunkSet st'
  /\ runtimeModules st `prefix_of` runtimeModules st'
  /\ (chunk_ref c' <> chunk_ref c ->
      attached_to c' st' = attached_to c' st
      /\ (chunk_ref c' ∈ onceForChunkSet st' <-> chunk_ref c' ∈ onceForChunkSet st)).
Proof.
  cbn zeta. rewrite listener_effect.
  destruct (runs_handler name c && bool_decide (chunk_ref c ∉ onceForChunkSet st));
    cbn [fst snd].
  - split; [set_solver|]. split; [unfold handled, addRuntimeModule, WeakSet_add; cbn; set_solver|].
    split; [by apply prefix_app_r|].
    intros Hne. rewrite attached_to_handled, marked_handled.
    destruct (Pos.eqb_spec (chunk_ref c) (chunk_ref c')); [congruence|].
    rewrite app_nil_r. split; [done|]. split; [|tauto]. intros [Hc|Heq]; [done|congruence].
  - split; [set_solver|]. split; [done|]. split; [done|]. done.
Qed.

End ListenerHistoryProps.

(** ** Registry: what a run of calls leaves behind *)

Lemma empty_registry_accounted : accounted empty_registry.
Proof.
  split; [|split; [|split]].
  - split; intros *; cbn; by rewrite lookup_empty.
  - reflexivity.
  - reflexivity.
  - intros *. cbn. by rewrite lookup_empty.
Qed.

Lemma getCompilationHooks_accounted (v : JsValue) (r : Registry) :
  accounted r -> accounted (snd (getCompilationHooks v r)).
Proof.
  intros (Halloc & Hheap & Hnext & Hdisj).
  destruct v as [c|d]; cbn; [|done].
  destruct (compilationHooksMap r !! c) eqn:Hc; cbn; [done|].
  pose proof Halloc as [Hkeys Hrefs].
  assert (Hfresh : forall k, (next_ref r <= k)%positive -> waterfall_hooks r !! k = None).
  { intros k Hk. destruct (waterfall_hooks r !! k) as [hook|] eqn:Hlook; [|done].
    specialize (Hkeys _ _ Hlook). lia. }
  split; [|split; [|split]].
  - apply (getCompilationHooks_allocated (CompilationInstance c) r) in Halloc.
    cbn in Halloc. by rewrite Hc in Halloc.
  - cbn. rewrite !map_size_insert_None; [lia|..];
      first [exact Hc | repeat (rewrite lookup_insert_ne by lia); apply Hfresh; lia].
  - cbn. rewrite map_size_insert_None by done. lia.
  - intros c1 c2 h1 h2 k Hne. cbn. rewrite !lookup_insert.
    repeat case_decide; subst; try congruence.
    + intros [= <-] H2 Hk Hk2. unfold hook_refs in Hk. cbn in Hk.
      rewrite !elem_of_cons, elem_of_nil in Hk.
      specialize (Hrefs _ _ _ H2 Hk2). lia.
    + intros H1 [= <-] Hk Hk2. unfold hook_refs in Hk2. cbn in Hk2.
      rewrite !elem_of_cons, elem_of_nil in Hk2.
      specialize (Hrefs _ _ _ H1 Hk). lia.
    + by apply Hdisj.
Qed.

Lemma registry_after_accounted (calls : list JsValue) (r : Registry) :
  accounted r -> accounted (registry_after calls r).
Proof.
  revert r. induction calls as [|v calls IH]; intros r Hr; [done|].
  cbn. apply IH. by apply getCompilationHooks_accounted.
Qed.

Lemma getCompilationHooks_dom (v : JsValue) (r : Registry) :
  dom (compilationHooksMap (snd (getCompilationHooks v r)))
  = dom (compilationHooksMap r) ∪ compilations_of [v].
Proof.
  destruct v as [c|d]; cbn.
  - destruct (compilationHooksMap r !! c) eqn:Hc; cbn.
    + apply (elem_of_dom_2 (compilationHooksMap r)) in Hc. set_solver.
    + rewrite dom_insert_L. set_solver.
  - set_solver.
Qed.

Lemma registry_after_dom (calls : list JsValue) (r : Registry) :
  dom (compilationHooksMap (registry_after calls r))
  = dom (compilationHooksMap r) ∪ compilations_of calls.
Proof.
  revert r. induction calls as [|v calls IH]; intros r.
  - cbn. set_solver.
  - change (registry_after (v :: calls) r)
      with (registry_after calls (snd (getCompilationHooks v r))).
    rewrite IH, getCompilationHooks_dom. unfold compilations_of. cbn [omap].
    destruct v; cbn; set_solver.
Qed.

(** X4. After any run of calls on the empty registry, the WeakMap
    has an entry for exactly the compilations that were passed, the
    registry holds four waterfall hooks per such compilation (repeated
    calls and calls with other values allocate nothing), and the objects
    of two different compilations are disjoint. *)
Theorem registry_holds_five_objects_per_compilation (calls : list JsValue) :
  let r := registry_after calls empty_registry in
  dom (compilationHooksMap r) = compilations_of calls
  /\ size (waterfall_hooks r) = 4 * size (compilations_of calls)
  /\ (forall c1 c2 h1 h2 k,
        c1 <> c2 ->
        compilationHooksMap r !! c1 = Some h1 ->
        compilationHooksMap r !! c2 = Some h2 ->
        k ∈ hook_refs h1 -> k ∉ hook_refs h2).
Proof.
  cbn zeta.
  destruct (registry_after_accounted calls _ empty_registry_accounted)
    as (_ & Hheap & _ & Hdisj).
  assert (Hdom : dom (compilationHooksMap (registry_after calls empty_registry))
                 = compilations_of calls).
  { rewrite registry_after_dom. cbn. rewrite dom_empty_L. set_solver. }
  rewrite <- Hdom, size_dom. done.
Qed.

(** ** Hash contributor and manifest emitter together *)

Lemma string_of_Z_nonempty (n : Z) : string_of_Z n <> "".
Proof.
  unfold string_of_Z. destruct (Z.to_int n) as [d|d]; [|discriminate].
  by destruct d.
Qed.

Lemma stringify_nonempty (v : JSON.value) : JSON.stringify v <> "".
Proof.
  destruct v as [|[]|n|s|l]; try discriminate.
  apply string_of_Z_nonempty.
Qed.

Lemma join_cons_nonempty (sep x : string) (l : list string) : x <> "" -> join sep (x :: l) <> "".
Proof. intros Hx. destruct l; cbn [join]; [done|]. by destruct x. Qed.

Lemma stringify_array_empty (l : list JSON.value) :
  JSON.stringify (JSON.Array l) = JSON.stringify (JSON.Array []) -> l = [].
Proof.
  destruct l as [|v l]; [done|]. intros Heq. exfalso.
  change (JSON.stringify (JSON.Array (v :: l)))
    with ("[" +:+ join "," (JSON.stringify v :: map JSON.stringify l) +:+ "]") in Heq.
  change (JSON.stringify (JSON.Array [])) with ("[" +:+ "" +:+ "]") in Heq.
  apply append_inv_l, append_inv_r in Heq.
  by apply (join_cons_nonempty "," _ _ (stringify_nonempty v)) in Heq.
Qed.

Section HashCoversEmitter.
Context `{!Template.t} `{!JsonpHelpers.t}.

Lemma entriesPart_of_serialized (e1 e2 : list JSON.value) :
  JSON.stringify (JSON.Array e1) = JSON.stringify (JSON.Array e2) ->
  entriesPart_of e1 = entriesPart_of e2.
Proof.
  intros Heq. unfold entriesPart_of. rewrite Heq.
  destruct e1 as [|v1 e1], e2 as [|v2 e2]; try done.
  - symmetry in Heq. by apply stringify_array_empty in Heq.
  - by apply stringify_array_empty in Heq.
Qed.

(** X5. The hash contributor covers every option the manifest emitter
    reads: two chunks without runtime that feed the same strings into the
    hash, and agree on the hot-update flag, on their ids and on the
    rendered runtime modules, get the same wrapper around the same
    modules. *)
Theorem hashed_inputs_determine_wrapper (modules : Source) (rc1 rc2 : RenderContext) :
  hasRuntime (chunk rc1) = false ->
  hasRuntime (chunk rc2) = false ->
  chunkHash_tap (chunk rc1) [] rc1 = chunkHash_tap (chunk rc2) [] rc2 ->
  isHotUpdateChunk (chunk rc1) = isHotUpdateChunk (chunk rc2) ->
  chunk_id (chunk rc1) = chunk_id (chunk rc2) ->
  chunk_ids (chunk rc1) = chunk_ids (chunk rc2) ->
  runtimePart_of rc1 = runtimePart_of rc2 ->
  renderChunk_tap modules rc1 = renderChunk_tap modules rc2.
Proof.
  intros Hrt1 Hrt2 Hhash Hhot Hid Hids Hruntime.
  unfold chunkHash_tap, Hash_update in Hhash. rewrite Hrt1, Hrt2 in Hhash.
  cbn [app] in Hhash.
  pose proof (f_equal (fun l => nth 2 l "") Hhash) as Hentries.
  pose proof (f_equal (fun l => nth 3 l "") Hhash) as Hq.
  pose proof (f_equal (fun l => nth 4 l "") Hhash) as Hh.
  pose proof (f_equal (fun l => nth 5 l "") Hhash) as Hg.
  cbn [nth] in Hentries, Hq, Hh, Hg.
  unfold renderChunk_tap.
  rewrite Hhot, Hid, Hids, Hruntime, Hq, Hh, Hg, (entriesPart_of_serialized _ _ Hentries).
  reflexivity.
Qed.

End HashCoversEmitter.

(** ** The emitted loader: who reports, and what *)

Section EmittedLoaderOutcomes.
Variable chunkId : string.
Variable loadingEnded : nat -> bool.

(** X6. With both listener slots holding the completion handler, the
    first stimulus delivered, whichever it is, decides the load attempt:
    the final state is the one the handler leaves on that stimulus,
    [loadingEnded] has been called exactly once (also when it answers with
    a falsy value), and there is one report or none according to that
    answer. *)
Theorem first_stimulus_settles_wired_loader (url : string) (s : Stimulus)
    (later : list Stimulus) :
  let start := armed url (Some Completion) (Some Completion) in
  let final := deliver_all chunkId loadingEnded (s :: later) start in
  final = completion chunkId loadingEnded (Some (event_of s start)) start
  /\ loadingEnded_calls final = 1
  /\ reported final
     = if loadingEnded 0 then [populate chunkId (Some (event_of s start))] else [].
Proof.
  cbn zeta. rewrite deliver_all_cons.
  assert (Hfirst : deliver chunkId loadingEnded s (armed url (Some Completion) (Some Completion))
                   = completion chunkId loadingEnded
                       (Some (event_of s (armed url (Some Completion) (Some Completion))))
                       (armed url (Some Completion) (Some Completion))).
  { by destruct s. }
  rewrite Hfirst, deliver_all_after_completion.
  split; [reflexivity|]. split; [reflexivity|].
  unfold completion. cbn. by destruct (loadingEnded 0).
Qed.

Lemma deliver_unwired (s : Stimulus) (l : Loader) :
  script_onload l <> Some Completion ->
  script_onerror l <> Some Completion ->
  is_timer s = false ->
  deliver chunkId loadingEnded s l = l.
Proof.
  intros Hload Herror Hs. destruct s as [e|e|]; [| |discriminate]; cbn.
  - destruct (script_onload l) as [[| |name]|]; done.
  - destruct (script_onerror l) as [[| |name]|]; done.
Qed.

(** X7. When neither listener slot holds the completion handler, load
    and error events change nothing: the attempt stays pending until the
    timer callback runs, and the only error that can be reported is of
    kind [timeout]. *)
Theorem unwired_loader_reports_only_timeout (url : string) (onload onerror : option Callback)
    (stimuli : list Stimulus) :
  onload <> Some Completion ->
  onerror <> Some Completion ->
  let start := armed url onload onerror in
  let final := deliver_all chunkId loadingEnded stimuli start in
  (existsb is_timer stimuli = false -> final = start)
  /\ (existsb is_timer stimuli = true ->
      final = completion chunkId loadingEnded (Some (timeout_event start)) start)
  /\ (forall err, err ∈ reported final -> type err = StringVal "timeout").
Proof.
  intros Hload Herror. cbn zeta.
  assert (Hcases :
    (existsb is_timer stimuli = false
     /\ deliver_all chunkId loadingEnded stimuli (armed url onload onerror)
        = armed url onload onerror)
    \/ (existsb is_timer stimuli = true
        /\ deliver_all chunkId loadingEnded stimuli (armed url onload onerror)
           = completion chunkId loadingEnded
               (Some (timeout_event (armed url onload onerror)))
               (armed url onload onerror))).
  { induction stimuli as [|s stimuli IH]; [by left|].
    rewrite deliver_all_cons. cbn [existsb]. destruct (is_timer s) eqn:Hs.
    - right. split; [done|]. destruct s; try discriminate.
      cbn [deliver armed onScriptComplete invoke].
      apply deliver_all_after_completion.
    - rewrite deliver_unwired by done. exact IH. }
  destruct Hcases as [[Hno ->]|[Hyes ->]]; rewrite ?Hno, ?Hyes.
  - split; [done|]. split; [discriminate|]. intros err Herr. cbn in Herr.
    by apply elem_of_nil in Herr.
  - split; [discriminate|]. split; [done|]. intros err. unfold completion. cbn.
    destruct (loadingEnded 0); [|by intros ?%elem_of_nil].
    intros ->%list_elem_of_singleton. reflexivity.
Qed.

(** X8. Whatever the listener slots hold and whatever is delivered,
    an error that reaches the reporter has the name [ChunkLoadError] and a
    message built from its own [type] and [request] fields, its kind is
    never [load], it is the content of the pre-allocated error, and it is
    the only report of the attempt. *)
Theorem reported_errors_are_well_formed (url : string) (onload onerror : option Callback)
    (stimuli : list Stimulus) (err : ErrorObject) :
  let final := deliver_all chunkId loadingEnded stimuli (armed url onload onerror) in
  err ∈ reported final ->
  name err = "ChunkLoadError"
  /\ message err
     = "Loading chunk " +:+ chunkId +:+ " failed." +:+ lf
       +:+ "(" +:+ ToString (type err) +:+ ": " +:+ ToString (request err) +:+ ")"
  /\ type err <> StringVal "load"
  /\ error final = err
  /\ reported final = [err].
Proof.
  cbn zeta.
  destruct (deliver_all_cases chunkId loadingEnded stimuli (armed url onload onerror))
    as [->|(before & s & after & event & _ & _ & _ & ->)].
  - cbn. by intros ?%elem_of_nil.
  - unfold completion. cbn. destruct (loadingEnded 0); [|by intros ?%elem_of_nil].
    intros ->%list_elem_of_singleton. cbn.
    split; [reflexivity|]. split; [reflexivity|]. split; [|done].
    destruct event as [e|]; cbn; [|discriminate].
    destruct (String.eqb_spec (event_type e) "load") as [Heq|Hne]; [discriminate|].
    intros [= Heq]. done.
Qed.

End EmittedLoaderOutcomes.

(** ** Tag builders: the lines emitted for each configuration *)

Section TagBuilderLines.
Context `{!Template.t} `{!RuntimeTemplate.t} `{!RuntimeGlobals.t}.

(** X9. With no other plugin tapping [mutateTag], the prefetch builder
    emits the element creation, the guarded nonce, [rel], [as] and [href],
    and, exactly when a cross-origin policy is configured, an unguarded
    assignment of that policy; it never emits a [type] or a [charset]. *)
Theorem linkPrefetch_emitted_lines (o : OutputOptions) :
  linkPrefetch_lines [] o
  = ["var link = document.createElement(" +:+ JSON.stringify (JSON.Str "link") +:+ ");"]
    ++ nonce_block "link"
    ++ ["link.rel = " +:+ JSON.stringify (JSON.Str "prefetch") +:+ ";";
        "link.as = " +:+ JSON.stringify (JSON.Str "script") +:+ ";";
        "link.href = " +:+ RuntimeGlobals.publicPath +:+ " + "
          +:+ RuntimeGlobals.getChunkScriptFilename +:+ "(chunkId);"]
    ++ (if truthy (crossOriginLoading o)
        then ["link.crossOrigin = "
                +:+ JSON.stringify (config_string (crossOriginLoading o)) +:+ ";"]
        else []).
Proof.
  unfold linkPrefetch_lines, waterfall_call. cbn [fold_left].
  rewrite renderAttributes_plain by apply linkPrefetch_spec_plain.
  rewrite linkPrefetch_spec_entries. unfold spread_if, chunk_url_expr.
  destruct (truthy (crossOriginLoading o)); cbn [app];
    cbn [map concat render_entry vc_length vc_index nth_error interpolate Nat.ltb Nat.leb
           List.length app nonce_block];
    rewrite ?append_assoc; reflexivity.
Qed.

(** X10. With no other plugin tapping [mutateTag], the preload builder
    emits the element creation, [type] exactly when a script type is
    configured, [charset], the guarded nonce, [rel], [as], [href], and,
    exactly when a cross-origin policy is configured, the policy under a
    run-time test that the address is not on the origin of the page. *)
Theorem linkPreload_emitted_lines (o : OutputOptions) :
  linkPreload_lines [] o
  = ["var link = document.createElement(" +:+ JSON.stringify (JSON.Str "link") +:+ ");"]
    ++ (if truthy (jsonpScriptType o)
        then ["link.type = " +:+ JSON.stringify (config_string (jsonpScriptType o)) +:+ ";"]
        else [])
    ++ ["link.charset = " +:+ JSON.stringify (JSON.Str "utf-8") +:+ ";"]
    ++ nonce_block "link"
    ++ ["link.rel = " +:+ JSON.stringify (JSON.Str "preload") +:+ ";";
        "link.as = " +:+ JSON.stringify (JSON.Str "script") +:+ ";";
        "link.href = " +:+ RuntimeGlobals.publicPath +:+ " + "
          +:+ RuntimeGlobals.getChunkScriptFilename +:+ "(chunkId);"]
    ++ (if truthy (crossOriginLoading o)
        then ["if (link.href.indexOf(window.location.origin + '/') !== 0) {";
              Template.indent
                ("link.crossOrigin = "
                   +:+ JSON.stringify (config_string (crossOriginLoading o)) +:+ ";");
              "}"]
        else []).
Proof.
  unfold linkPreload_lines, waterfall_call. cbn [fold_left].
  rewrite renderAttributes_plain by apply linkPreload_spec_plain.
  rewrite linkPreload_spec_entries. unfold spread_if, chunk_url_expr.
  destruct (truthy (jsonpScriptType o)), (truthy (crossOriginLoading o)); cbn [app];
    cbn [map concat render_entry vc_length vc_index nth_error interpolate Nat.ltb Nat.leb
           List.length app nonce_block];
    rewrite ?append_assoc; reflexivity.
Qed.

(** X11. With no other plugin tapping [mutateTag], the attribute lines
    of the script builder follow its seven fixed lines in this order:
    [type] exactly when configured, [charset], [timeout] in seconds, the
    guarded nonce, [src], then, exactly when a cross-origin policy is
    configured, the policy under a test that reads the [src] just
    assigned, and last the lines rendered from the two handler entries. *)
Theorem jsonpScript_attribute_lines (o : OutputOptions) :
  drop 7 (jsonpScript_lines [] o)
  = (if truthy (jsonpScriptType o)
     then ["script.type = " +:+ JSON.stringify (config_string (jsonpScriptType o)) +:+ ";"]
     else [])
    ++ ["script.charset = " +:+ JSON.stringify (JSON.Str "utf-8") +:+ ";";
        "script.timeout = "
          +:+ JSON.stringify (JSON.Str (seconds_string (chunkLoadTimeout o))) +:+ ";"]
    ++ nonce_block "script"
    ++ ["script.src = url;"]
    ++ (if truthy (crossOriginLoading o)
        then ["if (script.src.indexOf(window.location.origin + '/') !== 0) {";
              Template.indent
                ("script.crossOrigin = "
                   +:+ JSON.stringify (config_string (crossOriginLoading o)) +:+ ";");
              "}"]
        else [])
    ++ handler_lines.
Proof.
  unfold jsonpScript_lines, waterfall_call. cbn [fold_left app drop].
  rewrite renderAttributes_plain by apply jsonpScript_spec_plain.
  rewrite jsonpScript_spec_entries. unfold spread_if.
  destruct (truthy (jsonpScriptType o)), (truthy (crossOriginLoading o)); cbn [app];
    cbn [map concat render_entry vc_length vc_index nth_error interpolate Nat.ltb Nat.leb
           List.length app nonce_block handler_lines];
    rewrite ?append_assoc; reflexivity.
Qed.



End TagBuilderLines.

(* ===================================================================== *)
(** * Concrete runs of the further properties                             *)
(* ===================================================================== *)

Lemma one_module_per_handled_chunk_witness :
  let calls :=
    [(DeferredEntryTap, Sample.main_chunk, ∅ : gset string);
     (EnsureChunkTap, Sample.main_chunk, ∅ : gset string);
     (SharedHandler, Sample.lazy_chunk, ∅ : gset string)] in
  let st :=
    @after_calls Sample.runtimeGlobals Sample.helpers Sample.hooks calls initial_state in
  @handled_in Sample.helpers Sample.main_chunk calls = true
  /\ chunk_ref Sample.main_chunk ∈ onceForChunkSet st
  /\ attached_to Sample.main_chunk st = [chunkLoadingModule Sample.hooks].
Proof.
  cbn zeta. split; [reflexivity|]. split.
  - apply (proj2 (proj2 (@one_module_per_handled_chunk Sample.runtimeGlobals Sample.helpers
                           Sample.hooks _ Sample.main_chunk))).
    reflexivity.
  - rewrite (proj1 (@one_module_per_handled_chunk Sample.runtimeGlobals Sample.helpers
                      Sample.hooks _ Sample.main_chunk)).
    reflexivity.
Defined.

Lemma listener_touches_only_its_chunk_witness :
  let st' :=
    snd (@listener Sample.runtimeGlobals Sample.helpers Sample.hooks SharedHandler
           Sample.lazy_chunk ∅ initial_state) in
  chunk_ref Sample.main_chunk <> chunk_ref Sample.lazy_chunk
  /\ attached_to Sample.main_chunk st' = attached_to Sample.main_chunk initial_state.
Proof.
  cbn zeta.
  assert (Hne : chunk_ref Sample.main_chunk <> chunk_ref Sample.lazy_chunk) by discriminate.
  split; [exact Hne|].
  exact (proj1 (proj2 (proj2 (proj2
           (@listener_touches_only_its_chunk Sample.runtimeGlobals Sample.helpers Sample.hooks
              SharedHandler Sample.lazy_chunk Sample.main_chunk ∅ initial_state))) Hne)).
Defined.

Lemma registry_holds_five_objects_per_compilation_witness :
  let calls :=
    [CompilationInstance 1; ForeignValue "options"; CompilationInstance 2;
     CompilationInstance 1] in
  let r := registry_after calls empty_registry in
  let h1 :=
    {| JsonpCompilationPluginHooks.self := 1%positive;
       JsonpCompilationPluginHooks.jsonpScript := 2%positive;
       JsonpCompilationPluginHooks.linkPreload := 3%positive;
       JsonpCompilationPluginHooks.linkPrefetch := 4%positive;
       JsonpCompilationPluginHooks.mutateTag := 5%positive |} in
  let h2 :=
    {| JsonpCompilationPluginHooks.self := 6%positive;
       JsonpCompilationPluginHooks.jsonpScript := 7%positive;
       JsonpCompilationPluginHooks.linkPreload := 8%positive;
       JsonpCompilationPluginHooks.linkPrefetch := 9%positive;
       JsonpCompilationPluginHooks.mutateTag := 10%positive |} in
  (1%positive <> 2%positive
   /\ compilationHooksMap r !! 1%positive = Some h1
   /\ compilationHooksMap r !! 2%positive = Some h2)
  /\ forall k, k ∈ hook_refs h1 -> k ∉ hook_refs h2.
Proof.
  cbn zeta.
  assert (Hne : 1%positive <> 2%positive) by discriminate.
  split; [split; [exact Hne|split; reflexivity]|].
  intros k.
  apply (proj2 (proj2 (registry_holds_five_objects_per_compilation
                         [CompilationInstance 1; ForeignValue "options";
                          CompilationInstance 2; CompilationInstance 1]))
           1%positive 2%positive _ _ k Hne); reflexivity.
Defined.

Lemma hashed_inputs_determine_wrapper_witness :
  let rc1 := Sample.context Sample.lazy_chunk Sample.options in
  let rc2 := Sample.context Sample.lazy_chunk (Sample.named "webpackJsonp" "webpackHotUpdate") in
  (crossOriginLoading (outputOptions rc1) <> crossOriginLoading (outputOptions rc2)
   /\ @chunkHash_tap Sample.helpers (chunk rc1) [] rc1
      = @chunkHash_tap Sample.helpers (chunk rc2) [] rc2)
  /\ @renderChunk_tap Sample.template Sample.helpers (RawSource "{}") rc1
     = @renderChunk_tap Sample.template Sample.helpers (RawSource "{}") rc2.
Proof.
  cbn zeta. split; [split; [discriminate|reflexivity]|].
  apply (@hashed_inputs_determine_wrapper Sample.template Sample.helpers); reflexivity.
Defined.

Lemma unwired_loader_reports_only_timeout_witness :
  let e := {| event_type := "error"; event_target := Element "https://cdn.example/7.js" |} in
  let start := armed "https://cdn.example/7.js" None (Some (Foreign "o")) in
  (None <> Some Completion /\ Some (Foreign "o") <> Some Completion)
  /\ deliver_all "7" (fun _ => true) [ErrorEvent e; LoadEvent e] start = start
  /\ deliver_all "7" (fun _ => true) [ErrorEvent e; TimerCallback; LoadEvent e] start
     = completion "7" (fun _ => true) (Some (timeout_event start)) start.
Proof.
  cbn zeta.
  assert (H1 : (None : option Callback) <> Some Completion) by discriminate.
  assert (H2 : Some (Foreign "o") <> Some Completion) by discriminate.
  split; [by split|]. split.
  - apply (proj1 (unwired_loader_reports_only_timeout "7" (fun _ => true)
                    "https://cdn.example/7.js" None (Some (Foreign "o")) _ H1 H2)).
    reflexivity.
  - apply (proj1 (proj2 (unwired_loader_reports_only_timeout "7" (fun _ => true)
                           "https://cdn.example/7.js" None (Some (Foreign "o")) _ H1 H2))).
    reflexivity.
Defined.

Lemma reported_errors_are_well_formed_witness :
  let e := {| event_type := "load"; event_target := Element "https://cdn.example/7.js" |} in
  let final :=
    deliver_all "7" (fun _ => true) [LoadEvent e; TimerCallback]
      (armed "https://cdn.example/7.js" (Some Completion) (Some Completion)) in
  let err := populate "7" (Some e) in
  err ∈ reported final
  /\ type err = StringVal "missing"
  /\ reported final = [err].
Proof.
  cbn zeta.
  assert (Hin : populate "7"
                  (Some {| event_type := "load";
                           event_target := Element "https://cdn.example/7.js" |})
                ∈ reported
                    (deliver_all "7" (fun _ => true)
                       [LoadEvent {| event_type := "load";
                                     event_target := Element "https://cdn.example/7.js" |};
                        TimerCallback]
                       (armed "https://cdn.example/7.js" (Some Completion) (Some Completion))))
    by (apply list_elem_of_here).
  split; [exact Hin|]. split; [reflexivity|].
  exact (proj2 (proj2 (proj2 (proj2
           (reported_errors_are_well_formed "7" (fun _ => true) "https://cdn.example/7.js"
              (Some Completion) (Some Completion) _ _ Hin))))).
Defined.
